(** * salt/pillar/http_yaml.py: the [ext_pillar] entry point

    A shallow embedding of [ext_pillar] and of the library calls it makes
    ([str.replace], [urllib.parse.quote], [re.finditer], [re.sub], the
    [__salt__] functions [grains.get] and [http.query], and [logging]),
    followed by the properties of the module.

    Text is modelled as a sequence of 8-bit characters: a Python 2 byte
    string, or the UTF-8 encoding of a Python 3 string. *)

From Stdlib Require Import String Ascii List ZArith Lia Bool DecimalString.
Import ListNotations.
Set Warnings "-register-all".
Local Open Scope string_scope.
Local Open Scope char_scope.
Local Open Scope list_scope.

(** ** Characters and strings *)

Definition newline : ascii := "010".
Definition backslash : ascii := "\".

Fixpoint mem_char (c : ascii) (s : string) : bool :=
  match s with
  | EmptyString => false
  | String x s' => Ascii.eqb c x || mem_char c s'
  end.

(** [strip_prefix p s] is what is left of [s] after its prefix [p]. *)
Fixpoint strip_prefix (p s : string) : option string :=
  match p, s with
  | EmptyString, _ => Some s
  | String a p', String b s' => if Ascii.eqb a b then strip_prefix p' s' else None
  | String _ _, EmptyString => None
  end.

(** Python's [sub in s] on strings. *)
Fixpoint contains (sub s : string) : bool :=
  match strip_prefix sub s with
  | Some _ => true
  | None => match s with
            | EmptyString => false
            | String _ s' => contains sub s'
            end
  end.

(** ** Replacing the matches of a matcher, left to right

    [match_at s] is what follows the match that starts at the head of [s], if
    there is one.  The scan resumes after each match, so matches do not
    overlap.  [fuel] bounds the number of steps; the length of the subject is
    enough for a matcher that consumes at least one character. *)
Fixpoint sub_with (match_at : string -> option string) (repl : string)
         (fuel : nat) (s : string) : string :=
  match fuel with
  | O => s
  | S fuel' =>
      match match_at s with
      | Some rest => (repl ++ sub_with match_at repl fuel' rest)%string
      | None =>
          match s with
          | EmptyString => EmptyString
          | String c s' => String c (sub_with match_at repl fuel' s')
          end
      end
  end.

Fixpoint interleave (new s : string) : string :=
  (new ++ match s with
          | EmptyString => EmptyString
          | String c s' => String c (interleave new s')
          end)%string.

(** [s.replace(old, new)]. *)
Definition str_replace (old new s : string) : string :=
  match old with
  | EmptyString => interleave new s
  | String _ _ => sub_with (strip_prefix old) new (String.length s) s
  end.

(** ** [urllib.parse.quote(s)] with its default [safe='/']

    Every character is written as it is when it is never quoted or is [/],
    and as [%XX], with two upper-case hexadecimal digits, otherwise.  The set
    of characters that are never quoted is that of Python 3.7 and later,
    which holds [~]. *)

Definition in_range (lo hi : nat) (c : ascii) : bool :=
  (lo <=? nat_of_ascii c)%nat && (nat_of_ascii c <=? hi)%nat.

(** Letters, digits and the characters [_.-~]. *)
Definition always_safe (c : ascii) : bool :=
  in_range 65 90 c || in_range 97 122 c || in_range 48 57 c
  || mem_char c "_.-~"%string.

Definition hex_digit (n : nat) : ascii :=
  match String.get n "0123456789ABCDEF"%string with
  | Some d => d
  | None => "0"
  end.

Definition quote_char (c : ascii) : string :=
  if always_safe c || Ascii.eqb c "/" then String c EmptyString
  else String "%" (String (hex_digit (nat_of_ascii c / 16))
                     (String (hex_digit (nat_of_ascii c mod 16)) EmptyString)).

Fixpoint quote (s : string) : string :=
  match s with
  | EmptyString => EmptyString
  | String c s' => (quote_char c ++ quote s')%string
  end.

(** ** [re.finditer(r'<(?P<grain_name>.*?)>', url)]

    [lazy_name s] reads the group after a [<]: the shortest run of characters
    other than a newline that is followed by [>].  It gives the captured name
    and what follows the closing [>]. *)
Fixpoint lazy_name (s : string) : option (string * string) :=
  match s with
  | EmptyString => None
  | String c s' =>
      if Ascii.eqb c ">" then Some (EmptyString, s')
      else if Ascii.eqb c newline then None
      else match lazy_name s' with
           | Some (name, rest) => Some (String c name, rest)
           | None => None
           end
  end.

Fixpoint finditer_go (fuel : nat) (s : string) : list string :=
  match fuel with
  | O => []
  | S fuel' =>
      match s with
      | EmptyString => []
      | String c s' =>
          if Ascii.eqb c "<" then
            match lazy_name s' with
            | Some (name, rest) => name :: finditer_go fuel' rest
            | None => finditer_go fuel' s'
            end
          else finditer_go fuel' s'
      end
  end.

(** The [grain_name] group of every match, in order. *)
Definition finditer_grain (url : string) : list string :=
  finditer_go (String.length url) url.

(** ** [re.sub(pattern, repl, s)]

    The modelled fragment of the pattern syntax: ordinary characters, [.]
    (one character of the model, that is one byte, other than a newline),
    the greedy quantifiers [*], [+] and [?] on one character, and [|]
    between branches.  Other syntax is [Unsupported], except for the one
    case of a pattern that the pattern compiler is known to reject, given
    with [re_compile]. *)

Inductive atom : Type :=
| ALit (c : ascii)
| ADot.

Inductive quant : Type :=
| QOne
| QStar
| QPlus
| QOpt.

Definition branch : Type := list (atom * quant).
Definition regex : Type := list branch.

Definition metachars : string := ".^$*+?{}[]\|()"%string.

Definition is_meta (c : ascii) : bool := mem_char c metachars.

Definition atom_of (c : ascii) : option atom :=
  if Ascii.eqb c "." then Some ADot
  else if is_meta c then None
  else Some (ALit c).

Definition quant_of (c : ascii) : option quant :=
  if Ascii.eqb c "*" then Some QStar
  else if Ascii.eqb c "+" then Some QPlus
  else if Ascii.eqb c "?" then Some QOpt
  else None.

Definition add_item (it : atom * quant) (r : option regex) : option regex :=
  match r with
  | Some (b :: bs) => Some ((it :: b) :: bs)
  | _ => None
  end.

Fixpoint parse_re (s : string) : option regex :=
  match s with
  | EmptyString => Some [[]]
  | String c s' =>
      if Ascii.eqb c "|" then option_map (cons []) (parse_re s')
      else
        match atom_of c with
        | None => None
        | Some a =>
            match s' with
            | EmptyString => add_item (a, QOne) (parse_re s')
            | String q s'' =>
                match quant_of q with
                | Some qu => add_item (a, qu) (parse_re s'')
                | None => add_item (a, QOne) (parse_re s')
                end
            end
        end
  end.

Inductive compiled : Type :=
| Compiled (r : regex)
| ReError
| Unsupported.

Fixpoint count_char (c : ascii) (s : string) : nat :=
  match s with
  | EmptyString => O
  | String x s' => (if Ascii.eqb c x then 1 else 0) + count_char c s'
  end.

(** A pattern with one opening parenthesis and nothing that could close or
    escape it ([)], a character set, a backslash), and without a repeat count
    in braces, is rejected by the pattern compiler with its own error. *)
Definition re_compile (pattern : string) : compiled :=
  if (count_char "(" pattern =? 1)%nat
     && negb (mem_char ")" pattern || mem_char "[" pattern
              || mem_char "{" pattern || mem_char backslash pattern)
  then ReError
  else match parse_re pattern with
       | Some r => Compiled r
       | None => Unsupported
       end.

Definition atom_match (a : atom) (c : ascii) : bool :=
  match a with
  | ALit x => Ascii.eqb x c
  | ADot => negb (Ascii.eqb c newline)
  end.

(** As many characters of [a] as possible, giving back one at a time until
    the rest of the branch [k] matches. *)
Definition greedy (a : atom) (k : string -> option string)
  : string -> option string :=
  fix go (s : string) : option string :=
    match s with
    | EmptyString => k EmptyString
    | String c s' =>
        if atom_match a c then
          match go s' with
          | Some rest => Some rest
          | None => k s
          end
        else k s
    end.

Definition one (a : atom) (k : string -> option string) (s : string)
  : option string :=
  match s with
  | EmptyString => None
  | String c s' => if atom_match a c then k s' else None
  end.

Fixpoint match_branch (b : branch) (s : string) : option string :=
  match b with
  | [] => Some s
  | (a, QOne) :: b' => one a (match_branch b') s
  | (a, QStar) :: b' => greedy a (match_branch b') s
  | (a, QPlus) :: b' => one a (greedy a (match_branch b')) s
  | (a, QOpt) :: b' =>
      match one a (match_branch b') s with
      | Some rest => Some rest
      | None => match_branch b' s
      end
  end.

(** The first branch that matches at the head of [s] wins. *)
Fixpoint match_regex (r : regex) (s : string) : option string :=
  match r with
  | [] => None
  | b :: r' =>
      match match_branch b s with
      | Some rest => Some rest
      | None => match_regex r' s
      end
  end.

Definition nullable_item (it : atom * quant) : bool :=
  match snd it with
  | QStar | QOpt => true
  | QOne | QPlus => false
  end.

Definition nullable (r : regex) : bool := existsb (forallb nullable_item) r.

Inductive sub_result : Type :=
| SubOk (s : string)
| SubError
| SubUnsupported.

(** A pattern that can match the empty string and a replacement with a
    backslash (a template with group references) are outside the model. *)
Definition re_sub (pattern repl s : string) : sub_result :=
  match re_compile pattern with
  | ReError => SubError
  | Unsupported => SubUnsupported
  | Compiled r =>
      if nullable r || mem_char backslash repl then SubUnsupported
      else SubOk (sub_with (match_regex r) repl (String.length s) s)
  end.

(** ** Python values *)

(** What [grains.get] returns.  The module observes a grain value through
    [not value] and [str(value)] only; [GObject] stands for any other object
    (a list or dict grain, say) by what those two give on it. *)
Inductive grain : Type :=
| GNone
| GBool (b : bool)
| GInt (z : Z)
| GStr (s : string)
| GObject (truth : bool) (text : string).

Definition truthy (g : grain) : bool :=
  match g with
  | GNone => false
  | GBool b => b
  | GInt z => negb (Z.eqb z 0)
  | GStr s => negb (String.eqb s EmptyString)
  | GObject truth _ => truth
  end.

Definition py_str (g : grain) : string :=
  match g with
  | GNone => "None"
  | GBool true => "True"
  | GBool false => "False"
  | GInt z => NilZero.string_of_int (Z.to_int z)
  | GStr s => s
  | GObject _ text => text
  end.

(** YAML-decoded data; the keys of a mapping are strings, in iteration
    order. *)
Inductive pyval : Type :=
| VNone
| VBool (b : bool)
| VInt (z : Z)
| VStr (s : string)
| VList (l : list pyval)
| VDict (d : list (string * pyval)).


Inductive exn : Type :=
| TypeError
| IndexError
| KeyError
| ReErr
| CollaboratorError (msg : string).

Inductive result (A : Type) : Type :=
| Ok (a : A)
| Raise (e : exn).
Arguments Ok {A} a.
Arguments Raise {A} e.

Fixpoint dict_get (k : string) (d : list (string * pyval)) : option pyval :=
  match d with
  | [] => None
  | (k', v) :: d' => if String.eqb k k' then Some v else dict_get k d'
  end.

Definition is_str (k : string) (v : pyval) : bool :=
  match v with
  | VStr s => String.eqb k s
  | _ => false
  end.

(** [key in data]. *)
Definition py_in (key : string) (data : pyval) : result bool :=
  match data with
  | VDict d => Ok (match dict_get key d with Some _ => true | None => false end)
  | VList l => Ok (existsb (is_str key) l)
  | VStr s => Ok (contains key s)
  | VNone | VBool _ | VInt _ => Raise TypeError
  end.

(** [l[i]], counting from the end for a negative [i]. *)
Definition py_index {A : Type} (l : list A) (i : Z) : result A :=
  let n := Z.of_nat (List.length l) in
  let j := if (i <? 0)%Z then (i + n)%Z else i in
  if (0 <=? j)%Z && (j <? n)%Z then
    match nth_error l (Z.to_nat j) with
    | Some x => Ok x
    | None => Raise IndexError
    end
  else Raise IndexError.

Definition chars (s : string) : list pyval :=
  map (fun c => VStr (String c EmptyString)) (list_ascii_of_string s).

(** [data[key]]. *)
Definition getitem (data key : pyval) : result pyval :=
  match data, key with
  | VDict d, VStr k =>
      match dict_get k d with
      | Some v => Ok v
      | None => Raise KeyError
      end
  | VDict _, _ => Raise KeyError
  | VList l, VInt i => py_index l i
  | VList l, VBool b => py_index l (if b then 1 else 0)%Z
  | VStr s, VInt i => py_index (chars s) i
  | VStr s, VBool b => py_index (chars s) (if b then 1 else 0)%Z
  | _, _ => Raise TypeError
  end.

(** What [for key in data] goes through. *)
Definition iter (data : pyval) : result (list pyval) :=
  match data with
  | VDict d => Ok (map (fun kv => VStr (fst kv)) d)
  | VList l => Ok l
  | VStr s => Ok (chars s)
  | VNone | VBool _ | VInt _ => Raise TypeError
  end.

(** ** The collaborators, the log and the monad of a call *)

(** [__salt__]: the two functions the module looks up in it, over a state
    [W] of the host that they may read and change. *)
Record salt (W : Type) : Type := {
  grains_get : string -> W -> result grain * W;
  http_query : string -> W -> result pyval * W
}.
Arguments grains_get {W} _ _ _.
Arguments http_query {W} _ _ _.

Inductive level : Type :=
| DEBUG
| ERROR.

(** What a call does that can be seen from outside, in order. *)
Inductive event : Type :=
| Log (lvl : level) (fmt : string) (args : list pyval)
| GrainsGet (name : string) (r : result grain)
| HttpQuery (url : string) (r : result pyval).

Record state (W : Type) : Type := {
  world : W;
  trace : list event
}.
Arguments world {W} _.
Arguments trace {W} _.

Inductive outcome (A : Type) : Type :=
| Returned (a : A)
| Raised (e : exn)
| OutOfModel.
Arguments Returned {A} a.
Arguments Raised {A} e.
Arguments OutOfModel {A}.

Definition M (W A : Type) : Type := state W -> outcome A * state W.

Definition ret {W A : Type} (a : A) : M W A := fun st => (Returned a, st).

Definition bind {W A B : Type} (m : M W A) (f : A -> M W B) : M W B :=
  fun st =>
    match m st with
    | (Returned a, st') => f a st'
    | (Raised e, st') => (Raised e, st')
    | (OutOfModel, st') => (OutOfModel, st')
    end.

Notation "x <- m ;; k" := (bind m (fun x => k))
  (at level 61, m at next level, right associativity).
Notation "m ;;; k" := (bind m (fun _ => k))
  (at level 61, right associativity).

Definition emit {W : Type} (e : event) : M W unit :=
  fun st => (Returned tt, {| world := world st; trace := trace st ++ [e] |}).

Definition lift {W A : Type} (r : result A) : M W A :=
  fun st =>
    match r with
    | Ok a => (Returned a, st)
    | Raise e => (Raised e, st)
    end.

Definition call_grains {W : Type} (S : salt W) (name : string) : M W grain :=
  fun st =>
    let (r, w) := grains_get S name (world st) in
    lift r {| world := w; trace := trace st ++ [GrainsGet name r] |}.

Definition call_http {W : Type} (S : salt W) (url : string) : M W pyval :=
  fun st =>
    let (r, w) := http_query S url (world st) in
    lift r {| world := w; trace := trace st ++ [HttpQuery url r] |}.

Definition lift_sub {W : Type} (r : sub_result) : M W string :=
  fun st =>
    match r with
    | SubOk s => (Returned s, st)
    | SubError => (Raised ReErr, st)
    | SubUnsupported => (OutOfModel, st)
    end.

(** ** [ext_pillar] *)

Definition fmt_grain : string := "Unable to get minion '%s' grain: %s".
Definition fmt_url : string := "Getting url: %s".
Definition fmt_query : string :=
  ("Error on minion '%s' http query: %s" ++ String newline "More Info:"
     ++ String newline "")%string.
Definition fmt_item : string := "%s: %s".

(** How the loop over the matches ends: it falls through with the url, or
    the function returns from inside it. *)
Inductive flow : Type :=
| Next (url : string)
| Return (v : pyval).

(** The body of [for match in re.finditer(grain_pattern, url)], over the
    names of the matches that are left. *)
Fixpoint grain_loop {W : Type} (S : salt W) (minion_id : string)
         (names : list string) (url : string) : M W flow :=
  match names with
  | [] => ret (Next url)
  | grain_name :: rest =>
      grain_value <- call_grains S grain_name ;;
      if negb (truthy grain_value) then
        emit (Log ERROR fmt_grain [VStr minion_id; VStr grain_name]) ;;;
        ret (Return (VDict []))
      else
        let grain_value := quote (py_str grain_value) in
        url' <- lift_sub (re_sub ("<" ++ grain_name ++ ">") grain_value url) ;;
        grain_loop S minion_id rest url'
  end.

Fixpoint log_items {W : Type} (data : pyval) (keys : list pyval) : M W unit :=
  match keys with
  | [] => ret tt
  | key :: rest =>
      v <- lift (getitem data key) ;;
      emit (Log ERROR fmt_item [key; v]) ;;;
      log_items data rest
  end.

(** Lines 100 to 108: the reading of the answer. *)
Definition read_answer {W : Type} (minion_id url : string) (data : pyval)
  : M W pyval :=
  has_dict <- lift (py_in "dict" data) ;;
  if has_dict : bool then lift (getitem data (VStr "dict"))
  else
    emit (Log ERROR fmt_query [VStr minion_id; VStr url]) ;;;
    keys <- lift (iter data) ;;
    log_items data keys ;;;
    ret (VDict []).

(** Lines 97 to 108: the request and the reading of its answer. *)
Definition fetch {W : Type} (S : salt W) (minion_id url : string) : M W pyval :=
  emit (Log DEBUG fmt_url [VStr url]) ;;;
  data <- call_http S url ;;
  read_answer minion_id url data.

Definition ext_pillar {W : Type} (S : salt W) (minion_id : string)
           (pillar : pyval) (url : string) (with_grains : bool) : M W pyval :=
  let url := str_replace "%s" (quote minion_id) url in
  fl <- (if with_grains
         then grain_loop S minion_id (finditer_grain url) url
         else ret (Next url)) ;;
  match fl with
  | Return v => ret v
  | Next url => fetch S minion_id url
  end.

(** A call from a host state, with an empty log. *)
Definition run {W : Type} (S : salt W) (minion_id : string) (pillar : pyval)
           (url : string) (with_grains : bool) (w : W)
  : outcome pyval * state W :=
  ext_pillar S minion_id pillar url with_grains {| world := w; trace := [] |}.

(** ** Collaborators for the examples *)

Fixpoint assoc {A : Type} (k : string) (l : list (string * A)) : option A :=
  match l with
  | [] => None
  | (k', a) :: l' => if String.eqb k k' then Some a else assoc k l'
  end.

(** A host without state: grains from a table ([None] for a grain that is
    not set), and one answer to every request. *)
Definition table_salt (grains : list (string * grain)) (answer : result pyval)
  : salt unit :=
  {| grains_get := fun name w =>
       (Ok (match assoc name grains with Some g => g | None => GNone end), w);
     http_query := fun url w => (answer, w) |}.

Definition web_answer : pyval :=
  VDict [("dict"%string, VDict [("role"%string, VStr "web")])].

Definition text_answer : pyval := VDict [("dict"%string, VStr "web")].

Definition timeout_answer : pyval := VDict [("error"%string, VStr "timeout")].

(** A host whose lookups raise. *)
Definition no_grains_salt : salt unit :=
  {| grains_get := fun name w => (Raise (CollaboratorError "no grains"), w);
     http_query := fun url w => (Ok web_answer, w) |}.

(** ** Reading a log *)

Definition lookup_name (e : event) : list string :=
  match e with
  | GrainsGet name _ => [name]
  | _ => []
  end.

(** The names looked up, in order. *)
Definition lookups (t : list event) : list string := flat_map lookup_name t.

Definition count_lookups (name : string) (t : list event) : nat :=
  List.length (filter (String.eqb name) (lookups t)).

Definition requested_url (e : event) : list string :=
  match e with
  | HttpQuery url _ => [url]
  | _ => []
  end.

(** The urls requested, in order. *)
Definition requests (t : list event) : list string := flat_map requested_url t.

Definition is_log (e : event) : bool :=
  match e with
  | Log _ _ _ => true
  | _ => false
  end.

(** The log entries, in order. *)
Definition logged (t : list event) : list event := filter is_log t.

Definition is_error (e : event) : bool :=
  match e with
  | Log ERROR _ _ => true
  | _ => false
  end.

(** A lookup that gave a value that counts as set. *)
Definition truthy_lookup (e : event) : Prop :=
  exists name g, e = GrainsGet name (Ok g) /\ truthy g = true.

(** How the loop over the matches can end, with the events of its last
    round. *)
Inductive loop_end (minion_id : string) : outcome flow -> list event -> Prop :=
| end_next url :
    loop_end minion_id (Returned (Next url)) []
| end_missing name g :
    truthy g = false ->
    loop_end minion_id (Returned (Return (VDict [])))
      [GrainsGet name (Ok g); Log ERROR fmt_grain [VStr minion_id; VStr name]]
| end_lookup_raised name e :
    loop_end minion_id (Raised e) [GrainsGet name (Raise e)]
| end_sub_raised :
    loop_end minion_id (Raised ReErr) []
| end_out_of_model :
    loop_end minion_id OutOfModel [].

(** The outcome and the log entries of [read_answer], which depend on the
    answer only. *)
Definition answer_of (minion_id url : string) (data : pyval)
  : outcome pyval * list event :=
  let (o, st) := read_answer minion_id url data {| world := tt; trace := [] |} in
  (o, trace st).

(** A name without a character that the pattern syntax gives a meaning to. *)
Fixpoint meta_free (name : string) : bool :=
  match name with
  | EmptyString => true
  | String c name' => negb (is_meta c) && meta_free name'
  end.

(** The characters that [quote] writes. *)
Definition url_char (c : ascii) : bool :=
  always_safe c || mem_char c "/%"%string.

Definition literal (p : string) : branch :=
  map (fun c => (ALit c, QOne)) (list_ascii_of_string p).

Definition item_entry (kv : string * pyval) : event :=
  Log ERROR fmt_item [VStr (fst kv); snd kv].

(** The url that replacing each name literally, in turn, would give. *)
Fixpoint literal_resolve (values : list (string * string)) (url : string)
  : string :=
  match values with
  | [] => url
  | (name, value) :: rest =>
      literal_resolve rest (str_replace ("<" ++ name ++ ">") value url)
  end.

(** What the loop substitutes, read from the log: for each lookup that gave
    a value, the name and the quoted text of the value. *)
Definition substitution (e : event) : list (string * string) :=
  match e with
  | GrainsGet name (Ok g) => [(name, quote (py_str g))]
  | _ => []
  end.

Definition substitutions (t : list event) : list (string * string) :=
  flat_map substitution t.

(** An answer that is no container, or a text that is not empty. *)
Definition unreadable (data : pyval) : bool :=
  match data with
  | VNone | VBool _ | VInt _ => true
  | VStr s => negb (String.eqb s EmptyString)
  | VList _ | VDict _ => false
  end.

(** A name as the scan can capture it: no [>], no newline, and in the url
    between [<] and [>]. *)
Definition captured_in (url name : string) : Prop :=
  mem_char ">" name = false
  /\ mem_char newline name = false
  /\ contains ("<" ++ name ++ ">") url = true.

(** ** The values that [str] and [quote] accept

    [quote] encodes its argument as UTF-8 and raises on a text that has no
    such encoding (a lone surrogate); [str] raises on an integer of more than
    [max_str_digits] digits.  [quote] and [py_str] above give what the two
    return on the values that they accept, which these tests describe. *)

Definition continuation (c : ascii) : bool := in_range 128 191 c.

(** The second byte of a sequence of three: no overlong form, no surrogate. *)
Definition second_of_three (a b : ascii) : bool :=
  if Ascii.eqb a "224" then in_range 160 191 b
  else if Ascii.eqb a "237" then in_range 128 159 b
  else continuation b.

(** The second byte of a sequence of four: no overlong form, nothing above
    U+10FFFF. *)
Definition second_of_four (a b : ascii) : bool :=
  if Ascii.eqb a "240" then in_range 144 191 b
  else if Ascii.eqb a "244" then in_range 128 143 b
  else continuation b.

(** The byte string is the UTF-8 encoding of a text. *)
Fixpoint utf8_valid (s : string) : bool :=
  match s with
  | EmptyString => true
  | String a s1 =>
      if in_range 0 127 a then utf8_valid s1
      else
        match s1 with
        | EmptyString => false
        | String b s2 =>
            if in_range 194 223 a then continuation b && utf8_valid s2
            else
              match s2 with
              | EmptyString => false
              | String c s3 =>
                  if in_range 224 239 a then
                    second_of_three a b && continuation c && utf8_valid s3
                  else
                    match s3 with
                    | EmptyString => false
                    | String d s4 =>
                        in_range 240 244 a && second_of_four a b
                        && continuation c && continuation d && utf8_valid s4
                    end
              end
        end
  end.

Definition max_str_digits : Z := 4300.

(** A grain value on which [quote(str(grain_value))] raises nothing. *)
Definition printable (g : grain) : bool :=
  match g with
  | GNone | GBool _ => true
  | GInt z => (Z.abs z <? 10 ^ max_str_digits)%Z
  | GStr s => utf8_valid s
  | GObject _ text => utf8_valid text
  end.


(** * Properties *)

(** ** Strings *)


Lemma append_assoc (a b c : string) :
  ((a ++ b) ++ c)%string = (a ++ (b ++ c))%string.
Proof. induction a as [|x a IH]; simpl; [reflexivity | now rewrite IH]. Qed.


Lemma mem_char_append (c : ascii) (a b : string) :
  mem_char c (a ++ b) = mem_char c a || mem_char c b.
Proof.
  induction a as [|x a IH]; simpl; [reflexivity|].
  now rewrite IH, orb_assoc.
Qed.

Lemma strip_prefix_spec (p s rest : string) :
  strip_prefix p s = Some rest <-> s = (p ++ rest)%string.
Proof.
  revert s; induction p as [|a p IH]; intros s; simpl.
  - split; intros H; [now inversion H | now subst].
  - destruct s as [|b s].
    + split; intros H; discriminate.
    + destruct (Ascii.eqb_spec a b) as [->|Hab].
      * rewrite IH. split; intros H; [now subst | now inversion H].
      * split; intros H; [discriminate | inversion H; congruence].
Qed.



Lemma strip_prefix_mem (c : ascii) (p s rest : string) :
  strip_prefix p s = Some rest -> mem_char c s = false -> mem_char c rest = false.
Proof.
  intros H Hs. apply strip_prefix_spec in H. subst.
  rewrite mem_char_append in Hs. now apply orb_false_iff in Hs.
Qed.

Lemma sub_with_ext (f g : string -> option string) (repl : string) :
  (forall s, f s = g s) ->
  forall fuel s, sub_with f repl fuel s = sub_with g repl fuel s.
Proof.
  intros Hfg. induction fuel as [|fuel IH]; intros s; simpl; [reflexivity|].
  rewrite <- Hfg. destruct (f s) as [rest|].
  - now rewrite IH.
  - destruct s as [|c s]; [reflexivity | now rewrite IH].
Qed.



Lemma sub_with_mem (c : ascii) (old new : string) :
  mem_char c new = false ->
  forall fuel s, mem_char c s = false ->
  mem_char c (sub_with (strip_prefix old) new fuel s) = false.
Proof.
  intros Hnew. induction fuel as [|fuel IH]; intros s Hs; simpl; [exact Hs|].
  destruct (strip_prefix old s) as [rest|] eqn:E.
  - rewrite mem_char_append, Hnew. simpl. apply IH.
    now apply (strip_prefix_mem c _ _ _ E).
  - destruct s as [|x s]; [reflexivity|].
    simpl in *. apply orb_false_iff in Hs as [Hx Hs].
    now rewrite Hx, IH.
Qed.

Lemma str_replace_mem (c : ascii) (a : ascii) (old' new s : string) :
  mem_char c new = false -> mem_char c s = false ->
  mem_char c (str_replace (String a old') new s) = false.
Proof. intros Hn Hs. unfold str_replace. now apply sub_with_mem. Qed.

(** ** [quote] *)

Lemma hex_digit_safe (n : nat) : always_safe (hex_digit n) = true.
Proof. do 16 (destruct n as [|n]; [reflexivity|]). reflexivity. Qed.

Lemma quote_char_chars (x c : ascii) :
  mem_char c (quote_char x) = true -> url_char c = true.
Proof.
  unfold quote_char, url_char.
  destruct (always_safe x || Ascii.eqb x "/") eqn:E; simpl; intros H.
  - rewrite orb_false_r in H. apply Ascii.eqb_eq in H. subst c.
    apply orb_true_iff in E as [-> | E]; [reflexivity|].
    now rewrite E, orb_true_r.
  - rewrite orb_false_r in H.
    apply orb_true_iff in H as [H | H];
      [apply Ascii.eqb_eq in H; subst c; reflexivity|].
    apply orb_true_iff in H as [H | H];
      apply Ascii.eqb_eq in H; subst c; now rewrite hex_digit_safe.
Qed.

Lemma quote_chars (s : string) (c : ascii) :
  mem_char c (quote s) = true -> url_char c = true.
Proof.
  induction s as [|x s IH]; simpl; [discriminate|].
  rewrite mem_char_append. intros H. apply orb_true_iff in H as [H | H].
  - now apply (quote_char_chars x).
  - now apply IH.
Qed.

Lemma quote_lacks (c : ascii) (s : string) :
  url_char c = false -> mem_char c (quote s) = false.
Proof.
  intros Hc. destruct (mem_char c (quote s)) eqn:E; [|reflexivity].
  apply quote_chars in E. congruence.
Qed.

(** ** The scan for placeholders *)

Lemma finditer_go_no_bracket (fuel : nat) (s : string) :
  mem_char "<" s = false -> finditer_go fuel s = [].
Proof.
  revert s. induction fuel as [|fuel IH]; intros s Hs; [reflexivity|].
  destruct s as [|c s]; [reflexivity|].
  cbn [mem_char] in Hs. apply orb_false_iff in Hs as [Hc Hs].
  cbn [finditer_go]. rewrite Ascii.eqb_sym, Hc. now apply IH.
Qed.

(** ** The fuel of the scans is enough

    A scan that starts with at least the length of its subject as fuel gives
    the same result as with any larger fuel: it stops on the end of the
    subject, never on the fuel. *)

Lemma lazy_name_shorter (s name rest : string) :
  lazy_name s = Some (name, rest) -> (String.length rest < String.length s)%nat.
Proof.
  revert name. induction s as [|c s IH]; intros name H; [discriminate|].
  cbn [lazy_name] in H. cbn [String.length].
  destruct (Ascii.eqb c ">"); [inversion H; subst; lia|].
  destruct (Ascii.eqb c newline); [discriminate|].
  destruct (lazy_name s) as [[n r]|]; [|discriminate].
  inversion H; subst. specialize (IH n eq_refl). lia.
Qed.

Lemma finditer_go_fuel (f1 : nat) :
  forall f2 s,
    (String.length s <= f1)%nat -> (String.length s <= f2)%nat ->
    finditer_go f1 s = finditer_go f2 s.
Proof.
  induction f1 as [|f1 IH]; intros f2 s H1 H2.
  - destruct s; [|cbn in H1; lia]. now destruct f2.
  - destruct f2 as [|f2]; [destruct s; [reflexivity | cbn in H2; lia]|].
    destruct s as [|c s]; [reflexivity|].
    cbn [finditer_go]. cbn [String.length] in H1, H2.
    destruct (Ascii.eqb c "<"); [|apply IH; lia].
    destruct (lazy_name s) as [[n r]|] eqn:E; [|apply IH; lia].
    apply lazy_name_shorter in E. f_equal. apply IH; lia.
Qed.

Lemma sub_with_fuel (m : string -> option string) (repl : string) :
  (forall s rest, m s = Some rest -> (String.length rest < String.length s)%nat) ->
  forall f1 f2 s,
    (String.length s <= f1)%nat -> (String.length s <= f2)%nat ->
    sub_with m repl f1 s = sub_with m repl f2 s.
Proof.
  intros Hm. induction f1 as [|f1 IH]; intros f2 s H1 H2.
  - destruct s; [|cbn in H1; lia]. destruct f2; [reflexivity|].
    cbn [sub_with]. destruct (m EmptyString) as [rest|] eqn:E; [|reflexivity].
    apply Hm in E. cbn in E. lia.
  - destruct f2 as [|f2].
    + destruct s; [|cbn in H2; lia].
      cbn [sub_with]. destruct (m EmptyString) as [rest|] eqn:E; [|reflexivity].
      apply Hm in E. cbn in E. lia.
    + cbn [sub_with]. destruct (m s) as [rest|] eqn:E.
      * apply Hm in E. f_equal. apply IH; lia.
      * destruct s as [|c s]; [reflexivity|].
        cbn [String.length] in H1, H2. f_equal. apply IH; lia.
Qed.

Lemma greedy_consumes (a : atom) (k : string -> option string) (d : nat) :
  (forall t r, k t = Some r -> (String.length r + d <= String.length t)%nat) ->
  forall s rest,
    greedy a k s = Some rest -> (String.length rest + d <= String.length s)%nat.
Proof.
  intros Hk. induction s as [|c s IH]; intros rest H; cbn [greedy] in H.
  - now apply Hk.
  - destruct (atom_match a c); [|now apply Hk].
    fold (greedy a k) in H.
    destruct (greedy a k s) as [r|] eqn:E; [|now apply Hk].
    inversion H; subst. specialize (IH rest eq_refl). cbn [String.length]. lia.
Qed.

Lemma one_consumes (a : atom) (k : string -> option string) (d : nat) :
  (forall t r, k t = Some r -> (String.length r + d <= String.length t)%nat) ->
  forall s rest,
    one a k s = Some rest -> (String.length rest + d < String.length s)%nat.
Proof.
  intros Hk s rest H. destruct s as [|c s]; [discriminate|].
  cbn [one] in H. destruct (atom_match a c); [|discriminate].
  apply Hk in H. cbn [String.length]. lia.
Qed.

Lemma match_branch_consumes (b : branch) :
  forall s rest,
    match_branch b s = Some rest ->
    (String.length rest + (if forallb nullable_item b then 0 else 1)
     <= String.length s)%nat.
Proof.
  induction b as [|[a q] b IH]; intros s rest H.
  - inversion H; subst. cbn. lia.
  - cbn [forallb]. unfold nullable_item at 1. cbn [snd].
    destruct q; cbn [match_branch andb] in H |- *.
    + apply (one_consumes a _ _ IH) in H. lia.
    + now apply (greedy_consumes a _ _ IH) in H.
    + apply (one_consumes a _ _ (greedy_consumes a _ _ IH)) in H. lia.
    + destruct (one a (match_branch b) s) as [r|] eqn:E.
      * inversion H; subst. apply (one_consumes a _ _ IH) in E. lia.
      * now apply IH.
Qed.

Lemma match_regex_consumes (r : regex) :
  nullable r = false ->
  forall s rest,
    match_regex r s = Some rest -> (String.length rest < String.length s)%nat.
Proof.
  induction r as [|b r IH]; intros Hn s rest H; [discriminate|].
  cbn [nullable existsb] in Hn. apply orb_false_iff in Hn as [Hb Hr].
  cbn [match_regex] in H. destruct (match_branch b s) as [t|] eqn:E.
  - inversion H; subst. apply match_branch_consumes in E. rewrite Hb in E. lia.
  - now apply IH.
Qed.

(** What [re_sub] gives does not depend on the fuel it takes. *)
Lemma re_sub_fuel (pattern repl s out : string) (r : regex) :
  re_compile pattern = Compiled r ->
  re_sub pattern repl s = SubOk out ->
  forall fuel, (String.length s <= fuel)%nat ->
  sub_with (match_regex r) repl fuel s = out.
Proof.
  intros Hc H fuel Hf. unfold re_sub in H. rewrite Hc in H.
  destruct (nullable r) eqn:Hn; [discriminate|].
  destruct (mem_char backslash repl); [discriminate|].
  cbn [orb] in H. inversion H; subst.
  apply sub_with_fuel; [now apply match_regex_consumes | exact Hf | lia].
Qed.

(** ** Patterns without metacharacters *)

Lemma not_meta_neq (c x : ascii) :
  is_meta c = false -> is_meta x = true -> Ascii.eqb c x = false.
Proof. intros Hc Hx. destruct (Ascii.eqb_spec c x); [congruence | reflexivity]. Qed.

Lemma meta_free_lacks (x : ascii) (p : string) :
  meta_free p = true -> is_meta x = true -> mem_char x p = false.
Proof.
  intros Hp Hx. induction p as [|c p IH]; [reflexivity|].
  cbn [meta_free] in Hp. apply andb_true_iff in Hp as [Hc Hp].
  apply negb_true_iff in Hc. cbn [mem_char].
  rewrite Ascii.eqb_sym, (not_meta_neq c x Hc Hx). now apply IH.
Qed.

Lemma meta_free_append (a b : string) :
  meta_free (a ++ b) = meta_free a && meta_free b.
Proof.
  induction a as [|c a IH]; [reflexivity|].
  cbn [append meta_free]. now rewrite IH, andb_assoc.
Qed.

Lemma parse_re_literal (p : string) :
  meta_free p = true -> parse_re p = Some [literal p].
Proof.
  induction p as [|c p IH]; [reflexivity|].
  intros H. cbn [meta_free] in H. apply andb_true_iff in H as [Hc Hp].
  apply negb_true_iff in Hc. cbn [parse_re].
  rewrite (not_meta_neq c "|" Hc eq_refl).
  unfold atom_of. rewrite (not_meta_neq c "." Hc eq_refl), Hc.
  destruct p as [|q p]; [reflexivity|].
  assert (is_meta q = false) as Hq.
  { cbn [meta_free] in Hp. apply andb_true_iff in Hp as [Hq _].
    now apply negb_true_iff in Hq. }
  unfold quant_of.
  rewrite (not_meta_neq q "*" Hq eq_refl), (not_meta_neq q "+" Hq eq_refl),
    (not_meta_neq q "?" Hq eq_refl).
  now rewrite (IH Hp).
Qed.

Lemma count_char_absent (c : ascii) (s : string) :
  mem_char c s = false -> count_char c s = O.
Proof.
  induction s as [|x s IH]; intros H; [reflexivity|].
  cbn [mem_char] in H. apply orb_false_iff in H as [Hx Hs].
  cbn [count_char]. now rewrite Hx, (IH Hs).
Qed.

Lemma re_compile_literal (p : string) :
  meta_free p = true -> re_compile p = Compiled [literal p].
Proof.
  intros Hp. unfold re_compile.
  rewrite (count_char_absent "(" p (meta_free_lacks "(" p Hp eq_refl)).
  cbn [Nat.eqb andb].
  now rewrite (parse_re_literal p Hp).
Qed.

Lemma match_branch_literal (p s : string) :
  match_branch (literal p) s = strip_prefix p s.
Proof.
  revert s. induction p as [|c p IH]; intros s; [reflexivity|].
  change (literal (String c p)) with ((ALit c, QOne) :: literal p).
  destruct s as [|x s]; [reflexivity|].
  cbn [match_branch strip_prefix]. unfold one, atom_match.
  destruct (Ascii.eqb c x); [apply IH | reflexivity].
Qed.

Lemma match_regex_literal (p s : string) :
  match_regex [literal p] s = strip_prefix p s.
Proof.
  cbn [match_regex]. rewrite match_branch_literal.
  now destruct (strip_prefix p s).
Qed.

(** On a pattern without metacharacters and a replacement without a
    backslash, [re.sub] is [str.replace]. *)
Lemma re_sub_literal (a : ascii) (p repl s : string) :
  meta_free (String a p) = true ->
  mem_char backslash repl = false ->
  re_sub (String a p) repl s = SubOk (str_replace (String a p) repl s).
Proof.
  intros Hp Hr. unfold re_sub, str_replace.
  rewrite (re_compile_literal _ Hp), Hr.
  change (nullable [literal (String a p)]) with false. cbn [orb].
  f_equal. apply sub_with_ext. intros t. apply match_regex_literal.
Qed.

Lemma re_sub_placeholder (name repl s : string) :
  meta_free name = true ->
  mem_char backslash repl = false ->
  re_sub ("<" ++ name ++ ">") repl s
  = SubOk (str_replace ("<" ++ name ++ ">") repl s).
Proof.
  intros Hn Hr. apply re_sub_literal; [|exact Hr].
  change (meta_free ("<" ++ name ++ ">") = true).
  now rewrite !meta_free_append, Hn.
Qed.

Lemma quote_no_backslash (s : string) : mem_char backslash (quote s) = false.
Proof. now apply quote_lacks. Qed.

(** ** The loop over the matches *)

Section Loop.
Context {W : Type} (S : salt W) (minion_id : string).

Lemma call_grains_eq (name : string) (st : state W) :
  call_grains S name st
  = (match fst (grains_get S name (world st)) with
     | Ok g => Returned g
     | Raise e => Raised e
     end,
     {| world := snd (grains_get S name (world st));
        trace := trace st
                 ++ [GrainsGet name (fst (grains_get S name (world st)))] |}).
Proof.
  unfold call_grains, lift.
  now destruct (grains_get S name (world st)) as [[g|e] w].
Qed.

Lemma grain_loop_shape (names : list string) :
  forall url st o st',
    grain_loop S minion_id names url st = (o, st') ->
    exists pre tl,
      trace st' = trace st ++ pre ++ tl
      /\ Forall truthy_lookup pre
      /\ loop_end minion_id o tl
      /\ exists rest, names = lookups (pre ++ tl) ++ rest.
Proof.
  induction names as [|name names IH]; intros url st o st' H.
  - inversion H; subst. exists [], []. rewrite app_nil_r.
    repeat split; [constructor | constructor | now exists []].
  - cbn [grain_loop] in H. unfold bind at 1 in H.
    rewrite call_grains_eq in H.
    destruct (fst (grains_get S name (world st))) as [g|e] eqn:Eg.
    + destruct (truthy g) eqn:Et; cbn [negb] in H.
      * unfold bind at 1 in H.
        destruct (re_sub _ _ url) as [url'| |]; cbn [lift_sub] in H.
        -- apply IH in H as (pre & tl & Ht & Hpre & Hend & rest & Hrest).
           cbn [trace] in Ht.
           exists (GrainsGet name (Ok g) :: pre), tl. split; [|split; [|split]].
           ++ rewrite Ht, <- app_assoc. reflexivity.
           ++ constructor; [now exists name, g | exact Hpre].
           ++ exact Hend.
           ++ exists rest. cbn. now rewrite Hrest.
        -- inversion H; subst; cbn [trace].
           exists [GrainsGet name (Ok g)], []. rewrite app_nil_r.
           split; [reflexivity | split; [|split]].
           ++ constructor; [now exists name, g | constructor].
           ++ constructor.
           ++ now exists names.
        -- inversion H; subst; cbn [trace].
           exists [GrainsGet name (Ok g)], []. rewrite app_nil_r.
           split; [reflexivity | split; [|split]].
           ++ constructor; [now exists name, g | constructor].
           ++ constructor.
           ++ now exists names.
      * cbv [bind emit ret] in H. cbn [world trace] in H.
        inversion H; subst; cbn [trace].
        exists [], [GrainsGet name (Ok g);
                    Log ERROR fmt_grain [VStr minion_id; VStr name]].
        split; [now rewrite <- app_assoc | split; [|split]].
        -- constructor.
        -- now constructor.
        -- now exists names.
    + inversion H; subst; cbn [trace].
      exists [], [GrainsGet name (Raise e)].
      split; [reflexivity | split; [|split]].
      * constructor.
      * constructor.
      * now exists names.
Qed.

End Loop.

(** ** The reading of the answer *)

Lemma state_eta {W : Type} (st : state W) :
  {| world := world st; trace := trace st ++ [] |} = st.
Proof. rewrite app_nil_r. now destruct st. Qed.

(** [log_items] and [read_answer] leave the host state alone; what they
    return and log does not depend on the state they start from. *)
Lemma log_items_pure (data : pyval) (keys : list pyval) :
  exists o evs,
    Forall (fun e => is_error e = true) evs
    /\ forall (W : Type) (st : state W),
        log_items data keys st
        = (o, {| world := world st; trace := trace st ++ evs |}).
Proof.
  induction keys as [|key keys (o & evs & Hevs & IH)].
  - exists (Returned tt), []. split; [constructor|].
    intros W st. cbn [log_items]. unfold ret. now rewrite state_eta.
  - destruct (getitem data key) as [v|e] eqn:E.
    + exists o, (Log ERROR fmt_item [key; v] :: evs).
      split; [now constructor|].
      intros W st. cbn [log_items]. unfold bind at 1. rewrite E. cbn [lift].
      unfold bind at 1. cbn [emit]. rewrite IH. cbn [world trace].
      now rewrite <- app_assoc.
    + exists (Raised e), []. split; [constructor|].
      intros W st. cbn [log_items]. unfold bind at 1. rewrite E. cbn [lift].
      now rewrite state_eta.
Qed.

Lemma read_answer_pure (minion_id url : string) (data : pyval) :
  exists o evs,
    Forall (fun e => is_error e = true) evs
    /\ forall (W : Type) (st : state W),
        read_answer minion_id url data st
        = (o, {| world := world st; trace := trace st ++ evs |}).
Proof.
  unfold read_answer. destruct (py_in "dict" data) as [[|]|e] eqn:E.
  - exists (match getitem data (VStr "dict") with
            | Ok v => Returned v
            | Raise e => Raised e
            end), [].
    split; [constructor|]. intros W st. unfold bind, lift.
    rewrite state_eta. now destruct (getitem data (VStr "dict")).
  - destruct (iter data) as [keys|e] eqn:Ei.
    + destruct (log_items_pure data keys) as (o & evs & Hevs & Hitems).
      exists (match o with
              | Returned _ => Returned (VDict [])
              | Raised e => Raised e
              | OutOfModel => OutOfModel
              end), (Log ERROR fmt_query [VStr minion_id; VStr url] :: evs).
      split; [now constructor|]. intros W st.
      unfold bind at 1. cbn [lift]. unfold bind at 1. cbn [emit].
      unfold bind at 1. cbn [lift]. unfold bind at 1. rewrite Hitems.
      cbn [world trace]. rewrite <- app_assoc. now destruct o.
    + exists (Raised e), [Log ERROR fmt_query [VStr minion_id; VStr url]].
      split; [now repeat constructor|]. intros W st.
      unfold bind at 1. cbn [lift]. unfold bind at 1. cbn [emit].
      unfold bind at 1. now cbn [lift].
  - exists (Raised e), []. split; [constructor|]. intros W st.
    unfold bind, lift. now rewrite state_eta.
Qed.

Lemma read_answer_eq {W : Type} (minion_id url : string) (data : pyval)
      (st : state W) :
  read_answer minion_id url data st
  = (fst (answer_of minion_id url data),
     {| world := world st;
        trace := trace st ++ snd (answer_of minion_id url data) |}).
Proof.
  destruct (read_answer_pure minion_id url data) as (o & evs & _ & H).
  unfold answer_of. now rewrite !H.
Qed.

Lemma answer_of_logs (minion_id url : string) (data : pyval) :
  Forall (fun e => is_error e = true) (snd (answer_of minion_id url data)).
Proof.
  destruct (read_answer_pure minion_id url data) as (o & evs & Hevs & H).
  unfold answer_of. now rewrite H.
Qed.

Lemma answer_of_dict (minion_id url : string) (d : list (string * pyval))
      (v : pyval) :
  dict_get "dict" d = Some v ->
  answer_of minion_id url (VDict d) = (Returned v, []).
Proof.
  intros H. unfold answer_of, read_answer, bind, lift. cbn [py_in getitem].
  now rewrite H.
Qed.

Lemma dict_get_in (d : list (string * pyval)) :
  NoDup (map fst d) ->
  forall kv, In kv d -> dict_get (fst kv) d = Some (snd kv).
Proof.
  induction d as [|[k v] d IH]; intros Hnd kv Hin; [contradiction|].
  inversion Hnd as [|? ? Hk Hd]; subst. cbn [dict_get].
  destruct Hin as [<- | Hin].
  - cbn [fst snd]. now rewrite String.eqb_refl.
  - destruct (String.eqb_spec (fst kv) k) as [Heq | _]; [|now apply IH].
    exfalso. apply Hk. subst k. now apply in_map.
Qed.

Lemma log_items_dict {W : Type} (d items : list (string * pyval)) :
  (forall kv, In kv items -> dict_get (fst kv) d = Some (snd kv)) ->
  forall st : state W,
    log_items (VDict d) (map (fun kv => VStr (fst kv)) items) st
    = (Returned tt,
       {| world := world st; trace := trace st ++ map item_entry items |}).
Proof.
  induction items as [|kv items IH]; intros Hget st.
  - cbn [map log_items]. unfold ret. now rewrite state_eta.
  - cbn [map log_items]. unfold bind at 1. cbn [getitem].
    rewrite (Hget kv (or_introl eq_refl)). cbn [lift].
    unfold bind at 1. cbn [emit]. rewrite IH.
    + cbn [world trace]. now rewrite <- app_assoc.
    + intros kv' Hin. apply Hget. now right.
Qed.

Lemma answer_of_no_dict (minion_id url : string) (d : list (string * pyval)) :
  dict_get "dict" d = None ->
  NoDup (map fst d) ->
  answer_of minion_id url (VDict d)
  = (Returned (VDict []),
     Log ERROR fmt_query [VStr minion_id; VStr url] :: map item_entry d).
Proof.
  intros H Hnd. unfold answer_of, read_answer. cbn [py_in]. rewrite H.
  unfold bind at 1. cbn [lift]. unfold bind at 1. cbn [emit].
  unfold bind at 1. cbn [lift iter]. unfold bind at 1.
  rewrite (log_items_dict d d (dict_get_in d Hnd)). reflexivity.
Qed.

(** ** The shape of a call *)

Lemma lookups_app (a b : list event) : lookups (a ++ b) = lookups a ++ lookups b.
Proof. apply flat_map_app. Qed.

Lemma requests_app (a b : list event) : requests (a ++ b) = requests a ++ requests b.
Proof. apply flat_map_app. Qed.

Lemma lookups_cons (e : event) (t : list event) :
  lookups (e :: t) = lookup_name e ++ lookups t.
Proof. reflexivity. Qed.

Lemma requests_cons (e : event) (t : list event) :
  requests (e :: t) = requested_url e ++ requests t.
Proof. reflexivity. Qed.

Lemma errors_no_lookups (evs : list event) :
  Forall (fun e => is_error e = true) evs -> lookups evs = [].
Proof.
  induction 1 as [|e evs He _ IH]; [reflexivity|].
  destruct e; try discriminate. exact IH.
Qed.

Lemma errors_no_requests (evs : list event) :
  Forall (fun e => is_error e = true) evs -> requests evs = [].
Proof.
  induction 1 as [|e evs He _ IH]; [reflexivity|].
  destruct e; try discriminate. exact IH.
Qed.

Lemma truthy_lookups_no_requests (evs : list event) :
  Forall truthy_lookup evs -> requests evs = [].
Proof.
  induction 1 as [|e evs (name & g & -> & _) _ IH]; [reflexivity | exact IH].
Qed.

Lemma truthy_lookups_no_logs (evs : list event) :
  Forall truthy_lookup evs -> logged evs = [].
Proof.
  induction 1 as [|e evs (name & g & -> & _) _ IH]; [reflexivity | exact IH].
Qed.

Section Call.
Context {W : Type} (S : salt W).

Lemma fetch_eq (minion_id url : string) (st : state W) :
  fetch S minion_id url st
  = let r := fst (http_query S url (world st)) in
    let t := trace st ++ [Log DEBUG fmt_url [VStr url]; HttpQuery url r] in
    match r with
    | Ok data =>
        (fst (answer_of minion_id url data),
         {| world := snd (http_query S url (world st));
            trace := t ++ snd (answer_of minion_id url data) |})
    | Raise e =>
        (Raised e,
         {| world := snd (http_query S url (world st)); trace := t |})
    end.
Proof.
  unfold fetch. unfold bind at 1. cbn [emit]. unfold bind at 1.
  unfold call_http. cbn [world trace].
  destruct (http_query S url (world st)) as [[data|e] w]; cbn [lift fst snd].
  - rewrite read_answer_eq. cbn [world trace].
    now rewrite <- (app_assoc (trace st) [_] [_]).
  - now rewrite <- app_assoc.
Qed.

(** Every call is a run of truthy lookups [pre], then either the end of the
    loop from inside ([tl] holds its last events), or the request. *)
Lemma run_shape (minion_id : string) (pillar : pyval) (url : string)
      (with_grains : bool) (w : W) :
  let url0 := str_replace "%s" (quote minion_id) url in
  let r := run S minion_id pillar url with_grains w in
  exists pre tl ofl,
    Forall truthy_lookup pre
    /\ loop_end minion_id ofl tl
    /\ (exists rest,
           (if with_grains then finditer_grain url0 else [])
           = lookups (pre ++ tl) ++ rest)
    /\ match ofl with
       | Returned (Next u) =>
           exists w1, r = fetch S minion_id u {| world := w1; trace := pre |}
       | Returned (Return v) => fst r = Returned v /\ trace (snd r) = pre ++ tl
       | Raised e => fst r = Raised e /\ trace (snd r) = pre ++ tl
       | OutOfModel => fst r = OutOfModel /\ trace (snd r) = pre ++ tl
       end.
Proof.
  intros url0 r. subst r. unfold run, ext_pillar. fold url0.
  destruct with_grains.
  - unfold bind.
    destruct (grain_loop S minion_id (finditer_grain url0) url0
                {| world := w; trace := [] |}) as [ofl st1] eqn:E.
    apply grain_loop_shape in E as (pre & tl & Ht & Hpre & Hend & Hrest).
    cbn [trace app] in Ht.
    exists pre, tl, ofl. repeat split; try assumption.
    destruct ofl as [[u|v]|e|]; cbn [fst snd]; try (now split).
    inversion Hend; subst. rewrite app_nil_r in Ht.
    exists (world st1). destruct st1 as [w1 t1]. cbn in *. now subst.
  - exists [], [], (Returned (Next url0)).
    repeat split; [constructor | constructor | now exists [] |].
    now exists w.
Qed.

(** A request in the log is the request of [fetch]: the call went through
    the loop, and what it gives is read from the answer. *)
Lemma run_request (minion_id : string) (pillar : pyval) (url : string)
      (with_grains : bool) (w : W) (u : string) (r : result pyval) :
  let res := run S minion_id pillar url with_grains w in
  In (HttpQuery u r) (trace (snd res)) ->
  exists pre,
    Forall truthy_lookup pre
    /\ match r with
       | Ok data =>
           fst res = fst (answer_of minion_id u data)
           /\ trace (snd res)
              = pre ++ [Log DEBUG fmt_url [VStr u]; HttpQuery u r]
                    ++ snd (answer_of minion_id u data)
       | Raise e =>
           fst res = Raised e
           /\ trace (snd res)
              = pre ++ [Log DEBUG fmt_url [VStr u]; HttpQuery u r]
       end.
Proof.
  intros res Hin. subst res.
  destruct (run_shape minion_id pillar url with_grains w)
    as (pre & tl & ofl & Hpre & Hend & _ & Hcase).
  assert (~ In (HttpQuery u r) pre) as Hnpre.
  { intros Hp. rewrite Forall_forall in Hpre.
    destruct (Hpre _ Hp) as (? & ? & ? & _). discriminate. }
  assert (~ In (HttpQuery u r) tl) as Hntl.
  { intros Hp. inversion Hend; subst; cbn in Hp;
      repeat (destruct Hp as [Hp | Hp]; [discriminate|]); exact Hp. }
  assert (~ In (HttpQuery u r) (pre ++ tl)) as Hn.
  { intros Hp. apply in_app_or in Hp. tauto. }
  destruct ofl as [[u'|v]|e|];
    try (destruct Hcase as [_ Ht]; rewrite Ht in Hin; contradiction).
  destruct Hcase as (w1 & Hrun). rewrite Hrun in Hin |- *.
  rewrite fetch_eq in Hin |- *. cbn [world trace] in Hin |- *. cbv zeta in *.
  exists pre. split; [exact Hpre|].
  destruct (fst (http_query S u' w1)) as [data|e] eqn:Eq;
    cbn [fst snd trace] in Hin |- *.
  - rewrite <- app_assoc in Hin. apply in_app_or in Hin as [Hin | Hin];
      [contradiction|].
    cbn [app] in Hin. destruct Hin as [Hin | [Hin | Hin]]; [discriminate | |].
    + inversion Hin; subst. split; [reflexivity | now rewrite <- app_assoc].
    + exfalso. pose proof (answer_of_logs minion_id u' data) as Hl.
      rewrite Forall_forall in Hl. apply Hl in Hin. discriminate.
  - apply in_app_or in Hin as [Hin | Hin]; [contradiction|].
    cbn in Hin. destruct Hin as [Hin | [Hin | []]]; [discriminate|].
    inversion Hin; subst. now split.
Qed.

(** The names looked up are the first placeholders of the url as it is
    after the substitution of the minion id. *)
Lemma run_lookups (minion_id : string) (pillar : pyval) (url : string)
      (with_grains : bool) (w : W) :
  exists rest,
    (if with_grains
     then finditer_grain (str_replace "%s" (quote minion_id) url)
     else [])
    = lookups (trace (snd (run S minion_id pillar url with_grains w))) ++ rest.
Proof.
  destruct (run_shape minion_id pillar url with_grains w)
    as (pre & tl & ofl & _ & Hend & (rest & Hrest) & Hcase).
  exists rest. rewrite Hrest. f_equal.
  destruct Hend as [u | n' g' Hg' | n' e | | ];
    try (destruct Hcase as [_ ->]; reflexivity).
  destruct Hcase as (w1 & ->). rewrite fetch_eq. cbv zeta.
  pose proof (answer_of_logs minion_id u) as Hl.
  destruct (fst (http_query S u _)) as [data|e]; cbn [snd trace world].
  - rewrite !lookups_app, (errors_no_lookups _ (Hl data)).
    cbn [lookups flat_map lookup_name app]. now rewrite !app_nil_r.
  - rewrite !lookups_app.
    cbn [lookups flat_map lookup_name app]. now rewrite !app_nil_r.
Qed.

Lemma grain_loop_cons (minion_id name : string) (rest : list string)
      (url : string) (st : state W) :
  grain_loop S minion_id (name :: rest) url st
  = let r := fst (grains_get S name (world st)) in
    let st1 := {| world := snd (grains_get S name (world st));
                  trace := trace st ++ [GrainsGet name r] |} in
    match r with
    | Ok g =>
        if truthy g then
          match re_sub ("<" ++ name ++ ">") (quote (py_str g)) url with
          | SubOk url' => grain_loop S minion_id rest url' st1
          | SubError => (Raised ReErr, st1)
          | SubUnsupported => (OutOfModel, st1)
          end
        else
          (Returned (Return (VDict [])),
           {| world := world st1;
              trace := trace st1
                       ++ [Log ERROR fmt_grain [VStr minion_id; VStr name]] |})
    | Raise e => (Raised e, st1)
    end.
Proof.
  cbn [grain_loop]. unfold bind at 1. rewrite call_grains_eq. cbv zeta.
  destruct (fst (grains_get S name (world st))) as [g|e]; [|reflexivity].
  destruct (truthy g); cbn [negb]; [|reflexivity].
  unfold bind at 1. now destruct (re_sub _ _ url).
Qed.

End Call.

Lemma filter_truthy_lookups (f : event -> bool) (evs : list event) :
  (forall name r, f (GrainsGet name r) = false) ->
  Forall truthy_lookup evs -> filter f evs = [].
Proof.
  intros Hf. induction 1 as [|e evs (name & g & -> & _) _ IH]; [reflexivity|].
  cbn [filter]. now rewrite Hf.
Qed.

Lemma filter_item_entries (f : event -> bool) (d : list (string * pyval)) :
  (forall fmt args, f (Log ERROR fmt args) = true) ->
  filter f (map item_entry d) = map item_entry d.
Proof.
  intros Hf. induction d as [|kv d IH]; [reflexivity|].
  cbn [map filter]. unfold item_entry at 1. now rewrite Hf, IH.
Qed.




Section Steps.
Context {W : Type} (S : salt W) (minion_id : string).

(** One round of the loop on a grain that is set. *)
Lemma grain_loop_step (name : string) (rest : list string) (url url' : string)
      (g : grain) (st : state W) :
  fst (grains_get S name (world st)) = Ok g ->
  truthy g = true ->
  re_sub ("<" ++ name ++ ">") (quote (py_str g)) url = SubOk url' ->
  grain_loop S minion_id (name :: rest) url st
  = grain_loop S minion_id rest url'
      {| world := snd (grains_get S name (world st));
         trace := trace st ++ [GrainsGet name (Ok g)] |}.
Proof.
  intros Hg Ht Hsub. cbn [grain_loop]. unfold bind at 1.
  rewrite call_grains_eq, Hg, Ht. cbn [negb]. unfold bind at 1.
  now rewrite Hsub.
Qed.



End Steps.

(** * The claims *)

Section Claims.
Context {W : Type} (S : salt W).
Variables (minion_id : string) (pillar : pyval) (url : string) (w : W).

(** C6: when the answer of the request holds a dictionary under the key
    [dict], [ext_pillar] returns that dictionary as it is: the same keys
    and values, in the same order. *)
Theorem dict_payload_returned (with_grains : bool) (u : string)
        (d payload : list (string * pyval)) :
  In (HttpQuery u (Ok (VDict d)))
     (trace (snd (run S minion_id pillar url with_grains w))) ->
  dict_get "dict" d = Some (VDict payload) ->
  fst (run S minion_id pillar url with_grains w) = Returned (VDict payload).
Proof.
  intros Hin Hd.
  destruct (run_request S minion_id pillar url with_grains w u _ Hin)
    as (pre & _ & Ho & _).
  rewrite Ho. now rewrite (answer_of_dict minion_id u d _ Hd).
Qed.

(** C9: the test for success looks at the presence of the key [dict] only.
    Whatever is stored under it is returned, a mapping or not, and nothing
    but the debug entry of the request is logged. *)
Theorem dict_check_presence_only (with_grains : bool) (u : string)
        (d : list (string * pyval)) (v : pyval) :
  In (HttpQuery u (Ok (VDict d)))
     (trace (snd (run S minion_id pillar url with_grains w))) ->
  dict_get "dict" d = Some v ->
  fst (run S minion_id pillar url with_grains w) = Returned v
  /\ logged (trace (snd (run S minion_id pillar url with_grains w)))
     = [Log DEBUG fmt_url [VStr u]].
Proof.
  intros Hin Hd.
  destruct (run_request S minion_id pillar url with_grains w u _ Hin)
    as (pre & Hpre & Ho & Ht).
  rewrite (answer_of_dict minion_id u d _ Hd) in Ho, Ht.
  split; [exact Ho|]. rewrite Ht. unfold logged.
  rewrite filter_app, (filter_truthy_lookups is_log pre); auto.
Qed.

(** C7: when the answer of the request is a mapping without the key [dict],
    [ext_pillar] returns the empty mapping.  Its error entries are one entry
    with the minion and the url, then one entry for each key and value of
    the answer, in order; the only other entry is the debug entry of the
    request.  The path is the same whatever the keys of the answer say
    about the failure. *)
Theorem missing_dict_key_logged (with_grains : bool) (u : string)
        (d : list (string * pyval)) :
  In (HttpQuery u (Ok (VDict d)))
     (trace (snd (run S minion_id pillar url with_grains w))) ->
  dict_get "dict" d = None ->
  NoDup (map fst d) ->
  fst (run S minion_id pillar url with_grains w) = Returned (VDict [])
  /\ filter is_error (trace (snd (run S minion_id pillar url with_grains w)))
     = Log ERROR fmt_query [VStr minion_id; VStr u] :: map item_entry d
  /\ logged (trace (snd (run S minion_id pillar url with_grains w)))
     = Log DEBUG fmt_url [VStr u]
         :: Log ERROR fmt_query [VStr minion_id; VStr u] :: map item_entry d.
Proof.
  intros Hin Hd Hnd.
  destruct (run_request S minion_id pillar url with_grains w u _ Hin)
    as (pre & Hpre & Ho & Ht).
  rewrite (answer_of_no_dict minion_id u d Hd Hnd) in Ho, Ht.
  split; [exact Ho|]. rewrite Ht. cbn [snd]. unfold logged.
  rewrite !filter_app, !(filter_truthy_lookups _ pre); auto.
  cbn [filter app is_error is_log].
  rewrite !filter_item_entries; auto.
Qed.

(** C3: with [with_grains] set, a lookup that gives a value that counts as
    not set (no value, an empty string, zero, false) ends the call at once:
    one error entry with the minion and the name is logged, no other
    placeholder is looked up, no request is made, and the empty mapping is
    returned. *)
Theorem missing_grain_ends_call (name : string) (g : grain) :
  In (GrainsGet name (Ok g))
     (trace (snd (run S minion_id pillar url true w))) ->
  truthy g = false ->
  fst (run S minion_id pillar url true w) = Returned (VDict [])
  /\ (exists pre,
         Forall truthy_lookup pre
         /\ trace (snd (run S minion_id pillar url true w))
            = pre ++ [GrainsGet name (Ok g);
                      Log ERROR fmt_grain [VStr minion_id; VStr name]])
  /\ logged (trace (snd (run S minion_id pillar url true w)))
     = [Log ERROR fmt_grain [VStr minion_id; VStr name]]
  /\ requests (trace (snd (run S minion_id pillar url true w))) = [].
Proof.
  intros Hin Hg.
  destruct (run_shape S minion_id pillar url true w)
    as (pre & tl & ofl & Hpre & Hend & _ & Hcase).
  assert (~ In (GrainsGet name (Ok g)) pre) as Hnpre.
  { intros Hp. rewrite Forall_forall in Hpre.
    destruct (Hpre _ Hp) as (n' & g' & Heq & Ht). inversion Heq; subst.
    congruence. }
  destruct Hend as [u | n' g' Hg' | n' e | | ].
  - exfalso. destruct Hcase as (w1 & Hrun). rewrite Hrun, fetch_eq in Hin.
    cbv zeta in Hin. pose proof (answer_of_logs minion_id u) as Hl.
    destruct (fst (http_query S u _)) as [data|e];
      cbn [snd trace] in Hin; repeat (apply in_app_or in Hin as [Hin|Hin]);
      try contradiction;
      try (cbn in Hin; destruct Hin as [Hin|[Hin|[]]]; discriminate).
    specialize (Hl data). rewrite Forall_forall in Hl.
    apply Hl in Hin. discriminate.
  - destruct Hcase as [Ho Ht]. rewrite Ht in Hin |- *.
    apply in_app_or in Hin as [Hin|Hin]; [contradiction|].
    cbn in Hin. destruct Hin as [Hin|[Hin|[]]]; [|discriminate].
    inversion Hin; subst.
    split; [exact Ho | split; [now exists pre | split]].
    + unfold logged.
      rewrite filter_app, (filter_truthy_lookups is_log pre); auto.
    + rewrite requests_app, (truthy_lookups_no_requests pre); auto.
  - exfalso. destruct Hcase as [_ Ht]. rewrite Ht in Hin.
    apply in_app_or in Hin as [Hin|Hin]; [contradiction|].
    cbn in Hin. destruct Hin as [Hin|[]]. discriminate.
  - exfalso. destruct Hcase as [_ Ht]. rewrite Ht, app_nil_r in Hin.
    contradiction.
  - exfalso. destruct Hcase as [_ Ht]. rewrite Ht, app_nil_r in Hin.
    contradiction.
Qed.

(** C4, as it holds on the code: on [http://x/<a>/<a>] with the grain [a]
    set to [v], the url requested is [http://x/v/v]; the first lookup already
    replaces both occurrences, and the name is looked up once for each of its
    two matches. *)
Theorem repeated_name_looked_up_per_match :
  (forall w', fst (grains_get S "a" w') = Ok (GStr "v")) ->
  requests (trace (snd (run S minion_id pillar "http://x/<a>/<a>" true w)))
  = ["http://x/v/v"%string]
  /\ lookups (trace (snd (run S minion_id pillar "http://x/<a>/<a>" true w)))
     = ["a"%string; "a"%string]
  /\ re_sub "<a>" (quote (py_str (GStr "v"))) "http://x/<a>/<a>"
     = SubOk "http://x/v/v".
Proof.
  intros Hg. split; [|split]; [| |reflexivity].
  all: unfold run, ext_pillar.
  all: change (str_replace "%s" (quote minion_id) "http://x/<a>/<a>")
         with "http://x/<a>/<a>"%string.
  all: change (finditer_grain "http://x/<a>/<a>")
         with ["a"%string; "a"%string].
  all: unfold bind at 1.
  all: rewrite (grain_loop_step S minion_id "a" ["a"%string]
                  "http://x/<a>/<a>" "http://x/v/v" (GStr "v") _
                  (Hg _) eq_refl eq_refl).
  all: rewrite (grain_loop_step S minion_id "a" [] "http://x/v/v"
                  "http://x/v/v" (GStr "v") _ (Hg _) eq_refl eq_refl).
  all: cbn [grain_loop ret world trace app]; rewrite fetch_eq; cbv zeta.
  all: cbn [world trace app].
  all: pose proof (answer_of_logs minion_id "http://x/v/v") as Hl.
  all: destruct (fst (http_query S "http://x/v/v" _)) as [data|e];
    cbn [snd trace]; [specialize (Hl data)|].
  - now rewrite !requests_cons, (errors_no_requests _ Hl).
  - reflexivity.
  - now rewrite !lookups_cons, (errors_no_lookups _ Hl).
  - reflexivity.
Qed.


End Claims.


(** C2: a name is read as a pattern, not as a literal string.  With the
    grains [a.b] and [aXb] set to [v] and [w], the first name also matches
    the second placeholder: the url requested is [http://x/v/v], where
    replacing each literal [<name>] gives [http://x/v/w]. *)
Theorem name_read_as_pattern :
  requests
    (trace (snd (run (table_salt [("a.b"%string, GStr "v");
                                  ("aXb"%string, GStr "w")] (Ok (VDict [])))
                   "minion" VNone "http://x/<a.b>/<aXb>" true tt)))
  = ["http://x/v/v"%string]
  /\ literal_resolve [("a.b"%string, "v"%string); ("aXb"%string, "w"%string)]
       "http://x/<a.b>/<aXb>"
     = "http://x/v/w"%string.
Proof. split; reflexivity. Qed.

(** C4: the name [a] of [http://x/<a>/<a>] is looked up twice, not once. *)
Lemma repeated_name_looked_up_twice :
  count_lookups "a"
    (trace (snd (run (table_salt [("a"%string, GStr "v")] (Ok (VDict [])))
                   "minion" VNone "http://x/<a>/<a>" true tt)))
  = 2%nat
  /\ ~ (requests
          (trace (snd (run (table_salt [("a"%string, GStr "v")] (Ok (VDict [])))
                         "minion" VNone "http://x/<a>/<a>" true tt)))
        = ["http://x/v/v"%string]
        /\ count_lookups "a"
             (trace (snd (run (table_salt [("a"%string, GStr "v")]
                                (Ok (VDict [])))
                            "minion" VNone "http://x/<a>/<a>" true tt)))
           = 1%nat).
Proof.
  split; [reflexivity|]. intros [_ H]. vm_compute in H. discriminate.
Qed.


(** * The claims on examples *)

Lemma dict_payload_returned_witness :
  fst (run (table_salt [] (Ok web_answer)) "minion" VNone "http://x/%s" false tt)
  = Returned (VDict [("role"%string, VStr "web")]).
Proof.
  apply (dict_payload_returned (table_salt [] (Ok web_answer)) "minion" VNone
           "http://x/%s" tt false "http://x/minion"
           [("dict"%string, VDict [("role"%string, VStr "web")])]).
  - vm_compute. right; left; reflexivity.
  - reflexivity.
Defined.

Lemma dict_check_presence_only_witness :
  fst (run (table_salt [] (Ok text_answer)) "minion" VNone "http://x/%s" false tt)
  = Returned (VStr "web")
  /\ logged (trace (snd (run (table_salt [] (Ok text_answer)) "minion" VNone
                           "http://x/%s" false tt)))
     = [Log DEBUG fmt_url [VStr "http://x/minion"]].
Proof.
  apply (dict_check_presence_only (table_salt [] (Ok text_answer)) "minion"
           VNone "http://x/%s" tt false "http://x/minion"
           [("dict"%string, VStr "web")]).
  - vm_compute. right; left; reflexivity.
  - reflexivity.
Defined.

Lemma missing_dict_key_logged_witness :
  fst (run (table_salt [] (Ok timeout_answer)) "minion" VNone "http://x/%s"
         false tt)
  = Returned (VDict [])
  /\ filter is_error
       (trace (snd (run (table_salt [] (Ok timeout_answer)) "minion" VNone
                      "http://x/%s" false tt)))
     = [Log ERROR fmt_query [VStr "minion"; VStr "http://x/minion"];
        Log ERROR fmt_item [VStr "error"; VStr "timeout"]]
  /\ logged
       (trace (snd (run (table_salt [] (Ok timeout_answer)) "minion" VNone
                      "http://x/%s" false tt)))
     = [Log DEBUG fmt_url [VStr "http://x/minion"];
        Log ERROR fmt_query [VStr "minion"; VStr "http://x/minion"];
        Log ERROR fmt_item [VStr "error"; VStr "timeout"]].
Proof.
  apply (missing_dict_key_logged (table_salt [] (Ok timeout_answer)) "minion"
           VNone "http://x/%s" tt false "http://x/minion"
           [("error"%string, VStr "timeout")]).
  - vm_compute. right; left; reflexivity.
  - reflexivity.
  - simpl. constructor; [intros [] | constructor].
Defined.

Lemma missing_grain_ends_call_witness :
  fst (run (table_salt [] (Ok web_answer)) "minion" VNone "http://x/<missing>"
         true tt)
  = Returned (VDict [])
  /\ (exists pre,
         Forall truthy_lookup pre
         /\ trace (snd (run (table_salt [] (Ok web_answer)) "minion" VNone
                          "http://x/<missing>" true tt))
            = pre ++ [GrainsGet "missing" (Ok GNone);
                      Log ERROR fmt_grain [VStr "minion"; VStr "missing"]])
  /\ logged (trace (snd (run (table_salt [] (Ok web_answer)) "minion" VNone
                           "http://x/<missing>" true tt)))
     = [Log ERROR fmt_grain [VStr "minion"; VStr "missing"]]
  /\ requests (trace (snd (run (table_salt [] (Ok web_answer)) "minion" VNone
                             "http://x/<missing>" true tt)))
     = [].
Proof.
  apply (missing_grain_ends_call (table_salt [] (Ok web_answer)) "minion"
           VNone "http://x/<missing>" tt "missing" GNone).
  - vm_compute. left; reflexivity.
  - reflexivity.
Defined.

Lemma repeated_name_looked_up_per_match_witness :
  requests
    (trace (snd (run (table_salt [("a"%string, GStr "v")] (Ok web_answer))
                   "minion" VNone "http://x/<a>/<a>" true tt)))
  = ["http://x/v/v"%string]
  /\ lookups
       (trace (snd (run (table_salt [("a"%string, GStr "v")] (Ok web_answer))
                      "minion" VNone "http://x/<a>/<a>" true tt)))
     = ["a"%string; "a"%string]
  /\ re_sub "<a>" (quote (py_str (GStr "v"))) "http://x/<a>/<a>"
     = SubOk "http://x/v/v".
Proof.
  apply (repeated_name_looked_up_per_match
           (table_salt [("a"%string, GStr "v")] (Ok web_answer)) "minion"
           VNone tt).
  intros w'. reflexivity.
Defined.


(** ** More examples *)

Example quote_reserved : quote "a b?&=<>" = "a%20b%3F%26%3D%3C%3E"%string.
Proof. reflexivity. Qed.

Example quote_keeps_safe : quote "web-01.example_x/~y" = "web-01.example_x/~y"%string.
Proof. reflexivity. Qed.

Example str_replace_every_occurrence :
  str_replace "%s" "id" "x%s%%s%" = "xid%id%"%string.
Proof. reflexivity. Qed.

Example finditer_lazy :
  finditer_grain "http://x/<a>/<a><<b>>" = ["a"; "a"; "<b"]%string.
Proof. reflexivity. Qed.

Example falsy_values :
  map truthy [GNone; GBool false; GInt 0; GStr ""; GObject false "[]"]
  = [false; false; false; false; false].
Proof. reflexivity. Qed.

Example int_grain_text : quote (py_str (GInt (-12))) = "-12"%string.
Proof. reflexivity. Qed.

(** A name with [+] is a pattern that does not match its own placeholder:
    the url is requested with the placeholder still in it. *)
Example plus_name_left_in_url :
  requests
    (trace (snd (run (table_salt [("a+"%string, GStr "v")] (Ok web_answer))
                   "minion" VNone "http://x/<a+>" true tt)))
  = ["http://x/<a+>"%string].
Proof. reflexivity. Qed.

(** A name with an opening parenthesis is a pattern that does not compile:
    [re.sub] raises, and so does [ext_pillar]. *)
Example parenthesis_name_raises :
  run (table_salt [("("%string, GStr "v")] (Ok web_answer))
      "minion" VNone "http://x/<(>" true tt
  = (Raised ReErr, {| world := tt; trace := [GrainsGet "(" (Ok (GStr "v"))] |}).
Proof. reflexivity. Qed.

(** An answer that is not a mapping makes the test for [dict] raise. *)
Example none_answer_raises :
  fst (run (table_salt [] (Ok VNone)) "minion" VNone "http://x/%s" false tt)
  = Raised TypeError.
Proof. reflexivity. Qed.

(** * Further properties of [ext_pillar] *)

(** ** Strings without an occurrence *)

Lemma contains_tail (sub : string) (c : ascii) (s : string) :
  contains sub (String c s) = false -> contains sub s = false.
Proof.
  cbn [contains]. destruct (strip_prefix sub (String c s)); [discriminate|].
  trivial.
Qed.

Lemma contains_head (sub s : string) :
  contains sub s = false -> strip_prefix sub s = None.
Proof.
  destruct s as [|c s]; cbn [contains];
    destruct (strip_prefix sub _); trivial; discriminate.
Qed.

Lemma sub_with_absent (old new : string) (fuel : nat) :
  forall s, contains old s = false ->
  sub_with (strip_prefix old) new fuel s = s.
Proof.
  induction fuel as [|fuel IH]; intros s H; [reflexivity|].
  cbn [sub_with]. rewrite (contains_head _ _ H).
  destruct s as [|c s]; [reflexivity|].
  now rewrite (IH s (contains_tail _ _ _ H)).
Qed.

Lemma contains_prefix (sub rest : string) : contains sub (sub ++ rest) = true.
Proof.
  assert (strip_prefix sub (sub ++ rest) = Some rest) as H
    by now apply strip_prefix_spec.
  destruct (sub ++ rest)%string; cbn [contains]; now rewrite H.
Qed.

Lemma contains_cons (sub : string) (c : ascii) (s : string) :
  contains sub s = true -> contains sub (String c s) = true.
Proof.
  intros H. cbn [contains]. now destruct (strip_prefix sub (String c s)).
Qed.

Lemma contains_suffix (sub a b : string) :
  contains sub b = true -> contains sub (a ++ b) = true.
Proof.
  intros H. induction a as [|c a IH]; [exact H|].
  cbn [append]. now apply contains_cons.
Qed.

(** ** What the scan captures *)

Lemma lazy_name_spec (s : string) :
  forall name rest,
    lazy_name s = Some (name, rest) ->
    mem_char ">" name = false
    /\ mem_char newline name = false
    /\ s = (name ++ String ">" rest)%string.
Proof.
  induction s as [|c s IH]; intros name rest H; [discriminate|].
  cbn [lazy_name] in H.
  destruct (Ascii.eqb_spec c ">") as [->|Hgt];
    [inversion H; subst; now repeat split|].
  destruct (Ascii.eqb_spec c newline) as [|Hnl]; [discriminate|].
  destruct (lazy_name s) as [[n r]|]; [|discriminate].
  inversion H; subst. destruct (IH n rest eq_refl) as (H1 & H2 & H3).
  cbn [mem_char append]. rewrite H1, H2, <- H3.
  repeat split; apply orb_false_iff; split; trivial;
    apply Ascii.eqb_neq; congruence.
Qed.

Lemma captured_in_cons (c : ascii) (s name : string) :
  captured_in s name -> captured_in (String c s) name.
Proof.
  intros (H1 & H2 & H3). repeat split; trivial. now apply contains_cons.
Qed.

Lemma captured_in_suffix (a b name : string) :
  captured_in b name -> captured_in (a ++ b) name.
Proof.
  intros (H1 & H2 & H3). repeat split; trivial. now apply contains_suffix.
Qed.

Lemma finditer_go_captured (fuel : nat) :
  forall s, Forall (captured_in s) (finditer_go fuel s).
Proof.
  induction fuel as [|fuel IH]; intros s; [constructor|].
  destruct s as [|c s]; [constructor|]. cbn [finditer_go].
  assert (Forall (captured_in (String c s)) (finditer_go fuel s)) as Hskip.
  { eapply Forall_impl; [|apply IH]. intros n. apply captured_in_cons. }
  destruct (Ascii.eqb_spec c "<") as [->|_]; [|exact Hskip].
  destruct (lazy_name s) as [[name rest]|] eqn:E; [|exact Hskip].
  destruct (lazy_name_spec s name rest E) as (H1 & H2 & H3).
  assert (String "<" s = (("<" ++ name ++ ">") ++ rest)%string) as Hs.
  { rewrite H3. cbn [append]. f_equal. now rewrite append_assoc. }
  constructor.
  - repeat split; trivial. rewrite Hs. apply contains_prefix.
  - eapply Forall_impl; [|apply IH]. intros n Hn. rewrite Hs.
    now apply captured_in_suffix.
Qed.

(** ** Characters that a substitution cannot bring in *)

Section Keeps.
Variable c : ascii.

Lemma greedy_keeps (a : atom) (k : string -> option string) :
  (forall t r, k t = Some r -> mem_char c t = false -> mem_char c r = false) ->
  forall s rest,
    greedy a k s = Some rest -> mem_char c s = false -> mem_char c rest = false.
Proof.
  intros Hk. induction s as [|x s IH]; intros rest H Hs; cbn [greedy] in H.
  - now apply (Hk _ _ H).
  - destruct (atom_match a x); [|now apply (Hk _ _ H)].
    fold (greedy a k) in H.
    destruct (greedy a k s) as [r|] eqn:E; [|now apply (Hk _ _ H)].
    inversion H; subst. apply IH; [reflexivity|].
    cbn [mem_char] in Hs. now apply orb_false_iff in Hs.
Qed.

Lemma one_keeps (a : atom) (k : string -> option string) :
  (forall t r, k t = Some r -> mem_char c t = false -> mem_char c r = false) ->
  forall s rest,
    one a k s = Some rest -> mem_char c s = false -> mem_char c rest = false.
Proof.
  intros Hk s rest H Hs. destruct s as [|x s]; [discriminate|].
  cbn [one] in H. destruct (atom_match a x); [|discriminate].
  apply (Hk _ _ H). cbn [mem_char] in Hs. now apply orb_false_iff in Hs.
Qed.

Lemma match_branch_keeps (b : branch) :
  forall s rest,
    match_branch b s = Some rest ->
    mem_char c s = false -> mem_char c rest = false.
Proof.
  induction b as [|[a q] b IH]; intros s rest H Hs.
  - now inversion H; subst.
  - destruct q; cbn [match_branch] in H.
    + exact (one_keeps a _ IH _ _ H Hs).
    + exact (greedy_keeps a _ IH _ _ H Hs).
    + exact (one_keeps a _ (greedy_keeps a _ IH) _ _ H Hs).
    + destruct (one a (match_branch b) s) as [r|] eqn:E.
      * inversion H; subst. exact (one_keeps a _ IH _ _ E Hs).
      * exact (IH _ _ H Hs).
Qed.

Lemma match_regex_keeps (r : regex) :
  forall s rest,
    match_regex r s = Some rest ->
    mem_char c s = false -> mem_char c rest = false.
Proof.
  induction r as [|b r IH]; intros s rest H Hs; [discriminate|].
  cbn [match_regex] in H. destruct (match_branch b s) as [t|] eqn:E.
  - inversion H; subst. exact (match_branch_keeps b _ _ E Hs).
  - exact (IH _ _ H Hs).
Qed.

Lemma sub_with_keeps (m : string -> option string) (repl : string) :
  (forall t r, m t = Some r -> mem_char c t = false -> mem_char c r = false) ->
  mem_char c repl = false ->
  forall fuel s,
    mem_char c s = false -> mem_char c (sub_with m repl fuel s) = false.
Proof.
  intros Hm Hrepl. induction fuel as [|fuel IH]; intros s Hs; [exact Hs|].
  cbn [sub_with]. destruct (m s) as [rest|] eqn:E.
  - rewrite mem_char_append, Hrepl. cbn [orb]. apply IH. exact (Hm _ _ E Hs).
  - destruct s as [|x s]; [reflexivity|].
    cbn [mem_char] in Hs |- *. apply orb_false_iff in Hs as [Hx Hs].
    now rewrite Hx, IH.
Qed.

Lemma re_sub_keeps (pattern repl s out : string) :
  re_sub pattern repl s = SubOk out ->
  mem_char c repl = false -> mem_char c s = false -> mem_char c out = false.
Proof.
  unfold re_sub. intros H Hrepl Hs.
  destruct (re_compile pattern) as [r| |]; try discriminate.
  destruct (nullable r || mem_char backslash repl); [discriminate|].
  inversion H; subst.
  apply sub_with_keeps; trivial. apply match_regex_keeps.
Qed.

End Keeps.

(** ** A call as its loop followed by its request *)

Lemma substitutions_app (a b : list event) :
  substitutions (a ++ b) = substitutions a ++ substitutions b.
Proof. apply flat_map_app. Qed.

Lemma errors_no_substitutions (evs : list event) :
  Forall (fun e => is_error e = true) evs -> substitutions evs = [].
Proof.
  induction 1 as [|e evs He _ IH]; [reflexivity|].
  destruct e; try discriminate. exact IH.
Qed.

Section Split.
Context {W : Type} (S : salt W) (minion_id : string).

Lemma run_split (pillar : pyval) (url : string) (with_grains : bool) (w : W) :
  exists ofl st1,
    grain_loop S minion_id
      (if with_grains
       then finditer_grain (str_replace "%s" (quote minion_id) url)
       else [])
      (str_replace "%s" (quote minion_id) url) {| world := w; trace := [] |}
    = (ofl, st1)
    /\ run S minion_id pillar url with_grains w
       = match ofl with
         | Returned (Next u) => fetch S minion_id u st1
         | Returned (Return v) => (Returned v, st1)
         | Raised e => (Raised e, st1)
         | OutOfModel => (OutOfModel, st1)
         end.
Proof.
  unfold run, ext_pillar, bind. destruct with_grains.
  - destruct (grain_loop S minion_id _ _ _) as [ofl st1].
    exists ofl, st1. split; [reflexivity|]. now destruct ofl as [[u|v]|e|].
  - eexists _, _. split; reflexivity.
Qed.

Lemma fetch_trace (url : string) (st : state W) :
  exists r post,
    trace (snd (fetch S minion_id url st))
    = trace st ++ Log DEBUG fmt_url [VStr url] :: HttpQuery url r :: post
    /\ Forall (fun e => is_error e = true) post.
Proof.
  rewrite fetch_eq. cbv zeta.
  destruct (fst (http_query S url (world st))) as [data|e]; cbn [snd trace].
  - exists (Ok data), (snd (answer_of minion_id url data)).
    split; [now rewrite <- app_assoc | apply answer_of_logs].
  - exists (Raise e), []. split; [reflexivity | constructor].
Qed.

Lemma loop_end_no_requests (o : outcome flow) (tl : list event) :
  loop_end minion_id o tl -> requests tl = [].
Proof. now destruct 1. Qed.

Lemma grain_loop_no_requests (names : list string) (url : string)
      (st st' : state W) (o : outcome flow) :
  grain_loop S minion_id names url st = (o, st') ->
  requests (trace st') = requests (trace st).
Proof.
  intros H.
  apply grain_loop_shape in H as (pre & tl & Ht & Hpre & Hend & _).
  rewrite Ht, !requests_app, (truthy_lookups_no_requests pre Hpre),
    (loop_end_no_requests _ _ Hend).
  now rewrite !app_nil_r.
Qed.

(** The loop, when it falls through on names without metacharacters, has
    looked every name up and replaced each [<name>] literally, in turn. *)
Lemma grain_loop_literal (names : list string) :
  forallb meta_free names = true ->
  forall url st u st',
    grain_loop S minion_id names url st = (Returned (Next u), st') ->
    exists evs,
      trace st' = trace st ++ evs
      /\ lookups evs = names
      /\ u = literal_resolve (substitutions evs) url.
Proof.
  induction names as [|name names IH]; intros Hn url st u st' H.
  - inversion H; subst. exists []. now rewrite app_nil_r.
  - cbn [forallb] in Hn. apply andb_true_iff in Hn as [Hname Hn].
    rewrite grain_loop_cons in H. cbv zeta in H.
    destruct (fst (grains_get S name (world st))) as [g|e]; [|discriminate].
    destruct (truthy g); [|discriminate].
    rewrite (re_sub_placeholder name _ url Hname (quote_no_backslash _)) in H.
    apply (IH Hn) in H as (evs & Ht & Hl & Hu). cbn [trace] in Ht.
    exists (GrainsGet name (Ok g) :: evs). split; [|split].
    + now rewrite Ht, <- app_assoc.
    + rewrite lookups_cons, Hl. reflexivity.
    + exact Hu.
Qed.

(** No round of the loop brings a character into the url that [quote] does
    not write. *)
Lemma grain_loop_keeps (c : ascii) (names : list string) :
  url_char c = false ->
  forall url st u st',
    grain_loop S minion_id names url st = (Returned (Next u), st') ->
    mem_char c url = false -> mem_char c u = false.
Proof.
  intros Hc. induction names as [|name names IH]; intros url st u st' H Hurl.
  - now inversion H; subst.
  - rewrite grain_loop_cons in H. cbv zeta in H.
    destruct (fst (grains_get S name (world st))) as [g|e]; [|discriminate].
    destruct (truthy g); [|discriminate].
    destruct (re_sub _ _ url) as [url'| |] eqn:E; try discriminate.
    apply (IH _ _ _ _ H).
    exact (re_sub_keeps c _ _ _ _ E (quote_lacks c _ Hc) Hurl).
Qed.

End Split.

Lemma run_requests {W : Type} (S : salt W) (minion_id : string)
      (pillar : pyval) (url : string) (with_grains : bool) (w : W) :
  exists ofl st1,
    grain_loop S minion_id
      (if with_grains
       then finditer_grain (str_replace "%s" (quote minion_id) url)
       else [])
      (str_replace "%s" (quote minion_id) url) {| world := w; trace := [] |}
    = (ofl, st1)
    /\ requests (trace (snd (run S minion_id pillar url with_grains w)))
       = match ofl with
         | Returned (Next u) => [u]
         | _ => []
         end.
Proof.
  destruct (run_split S minion_id pillar url with_grains w)
    as (ofl & st1 & Hloop & ->).
  exists ofl, st1. split; [exact Hloop|].
  pose proof (grain_loop_no_requests S minion_id _ _ _ _ _ Hloop) as Hreq.
  cbn [trace requests flat_map] in Hreq.
  destruct ofl as [[u|v]|e|]; cbn [snd]; try exact Hreq.
  destruct (fetch_trace S minion_id u st1) as (r & post & -> & Hpost).
  rewrite requests_app, Hreq, requests_cons, requests_cons,
    (errors_no_requests _ Hpost).
  reflexivity.
Qed.

(** ** The answers that [read_answer] can read *)

Lemma answer_of_unreadable (minion_id url : string) (data : pyval) :
  unreadable data = true ->
  fst (answer_of minion_id url data) = Raised TypeError.
Proof.
  destruct data as [| | |s| |]; try discriminate; try reflexivity.
  destruct s as [|c s]; [discriminate|]. intros _.
  unfold answer_of, read_answer. unfold bind at 1. cbn [py_in lift].
  now destruct (contains "dict" (String c s)).
Qed.

Lemma answer_of_returned (minion_id url : string) (data v : pyval) :
  fst (answer_of minion_id url data) = Returned v ->
  (py_in "dict" data = Ok true
   /\ getitem data (VStr "dict") = Ok v
   /\ snd (answer_of minion_id url data) = [])
  \/ (v = VDict []
      /\ exists evs,
          snd (answer_of minion_id url data)
          = Log ERROR fmt_query [VStr minion_id; VStr url] :: evs).
Proof.
  intros H. destruct (answer_of minion_id url data) as [o t] eqn:Ea.
  cbn [fst snd] in *. subst o. unfold answer_of, read_answer in Ea.
  destruct (py_in "dict" data) as [[|]|e] eqn:E.
  - unfold bind, lift in Ea.
    destruct (getitem data (VStr "dict")) as [v'|e']; cbn [trace] in Ea;
      inversion Ea; subst. now left.
  - destruct (iter data) as [keys|e] eqn:Ei.
    + destruct (log_items_pure data keys) as (o & evs & _ & Hitems).
      unfold bind at 1 in Ea. cbn [lift] in Ea. unfold bind at 1 in Ea.
      cbn [emit] in Ea. unfold bind at 1 in Ea. cbn [lift] in Ea.
      unfold bind at 1 in Ea. rewrite Hitems in Ea.
      cbn [world trace app] in Ea. destruct o; cbn [ret trace] in Ea;
        inversion Ea; subst.
      right. split; [reflexivity|]. eauto.
    + unfold bind at 1 in Ea. cbn [lift] in Ea. unfold bind at 1 in Ea.
      cbn [emit] in Ea. unfold bind at 1 in Ea. cbn [lift] in Ea.
      inversion Ea.
  - unfold bind, lift in Ea. inversion Ea.
Qed.


Lemma lazy_name_no_close (s : string) :
  mem_char ">" s = false -> lazy_name s = None.
Proof.
  induction s as [|c s IH]; intros H; [reflexivity|].
  cbn [mem_char] in H. apply orb_false_iff in H as [Hc Hs].
  cbn [lazy_name]. rewrite Ascii.eqb_sym, Hc, (IH Hs).
  now destruct (Ascii.eqb c newline).
Qed.

Lemma finditer_go_no_close (fuel : nat) :
  forall s, mem_char ">" s = false -> finditer_go fuel s = [].
Proof.
  induction fuel as [|fuel IH]; intros s Hs; [reflexivity|].
  destruct s as [|c s]; [reflexivity|].
  cbn [mem_char] in Hs. apply orb_false_iff in Hs as [_ Hs].
  cbn [finditer_go]. rewrite (lazy_name_no_close s Hs), (IH s Hs).
  now destruct (Ascii.eqb c "<").
Qed.

(** ** The properties *)

Section Further.
Context {W : Type} (S : salt W).
Variables (minion_id : string) (pillar : pyval) (url : string) (w : W).

(** X1: a url without [%s], in a call that has no placeholder to look up
    (without [with_grains], or with no match of the pattern), is logged and
    requested as it is, and nothing is done before the request. *)
Theorem plain_template_requested (with_grains : bool) :
  contains "%s" url = false ->
  (if with_grains then finditer_grain url else []) = [] ->
  exists r post,
    trace (snd (run S minion_id pillar url with_grains w))
    = Log DEBUG fmt_url [VStr url] :: HttpQuery url r :: post
    /\ Forall (fun e => is_error e = true) post.
Proof.
  intros Hs Hn.
  assert (str_replace "%s" (quote minion_id) url = url) as Hu
    by exact (sub_with_absent "%s" _ _ url Hs).
  destruct (run_split S minion_id pillar url with_grains w)
    as (ofl & st1 & Hloop & ->).
  rewrite Hu, Hn in Hloop. inversion Hloop; subst.
  destruct (fetch_trace S minion_id url {| world := w; trace := [] |})
    as (r & post & Ht & Hpost).
  exists r, post. now split.
Qed.

(** X2: a call makes at most one request.  When it makes one, everything
    before is lookups that gave a set value, then the debug entry with the
    url requested; everything after is error entries.  So no grain is looked
    up and nothing is requested after the request. *)
Theorem request_is_last_call (with_grains : bool) (u : string)
        (r : result pyval) :
  In (HttpQuery u r) (trace (snd (run S minion_id pillar url with_grains w))) ->
  requests (trace (snd (run S minion_id pillar url with_grains w))) = [u]
  /\ exists pre post,
      trace (snd (run S minion_id pillar url with_grains w))
      = pre ++ Log DEBUG fmt_url [VStr u] :: HttpQuery u r :: post
      /\ Forall truthy_lookup pre
      /\ Forall (fun e => is_error e = true) post.
Proof.
  intros Hin.
  destruct (run_request S minion_id pillar url with_grains w u r Hin)
    as (pre & Hpre & Hr).
  assert (exists post,
             trace (snd (run S minion_id pillar url with_grains w))
             = pre ++ Log DEBUG fmt_url [VStr u] :: HttpQuery u r :: post
             /\ Forall (fun e => is_error e = true) post) as (post & Ht & Hpost).
  { destruct r as [data|e]; destruct Hr as [_ Ht].
    - exists (snd (answer_of minion_id u data)).
      split; [exact Ht | apply answer_of_logs].
    - exists []. split; [exact Ht | constructor]. }
  split; [|now exists pre, post].
  rewrite Ht, requests_app, (truthy_lookups_no_requests pre Hpre),
    !requests_cons, (errors_no_requests _ Hpost).
  reflexivity.
Qed.

(** X3: an exception raised by [grains.get] is raised by [ext_pillar]: the
    call stops on that lookup, after lookups that gave a set value only, with
    nothing logged and nothing requested. *)
Theorem lookup_exception_propagates (with_grains : bool) (name : string)
        (e : exn) :
  In (GrainsGet name (Raise e))
     (trace (snd (run S minion_id pillar url with_grains w))) ->
  fst (run S minion_id pillar url with_grains w) = Raised e
  /\ (exists pre,
         Forall truthy_lookup pre
         /\ trace (snd (run S minion_id pillar url with_grains w))
            = pre ++ [GrainsGet name (Raise e)])
  /\ logged (trace (snd (run S minion_id pillar url with_grains w))) = []
  /\ requests (trace (snd (run S minion_id pillar url with_grains w))) = [].
Proof.
  intros Hin.
  destruct (run_shape S minion_id pillar url with_grains w)
    as (pre & tl & ofl & Hpre & Hend & _ & Hcase).
  assert (~ In (GrainsGet name (Raise e)) pre) as Hnpre.
  { intros Hp. rewrite Forall_forall in Hpre.
    destruct (Hpre _ Hp) as (n' & g' & Heq & _). discriminate. }
  destruct Hend as [u | n' g' Hg' | n' e' | | ].
  - exfalso. destruct Hcase as (w1 & Hrun). rewrite Hrun in Hin.
    destruct (fetch_trace S minion_id u {| world := w1; trace := pre |})
      as (r & post & Ht & Hpost).
    rewrite Ht in Hin. cbn [trace] in Hin.
    apply in_app_or in Hin as [Hin|Hin]; [contradiction|].
    destruct Hin as [Hin|[Hin|Hin]]; try discriminate.
    rewrite Forall_forall in Hpost. apply Hpost in Hin. discriminate.
  - exfalso. destruct Hcase as [_ Ht]. rewrite Ht in Hin.
    apply in_app_or in Hin as [Hin|Hin]; [contradiction|].
    destruct Hin as [Hin|[Hin|[]]]; discriminate.
  - destruct Hcase as [Ho Ht]. rewrite Ht in Hin |- *.
    apply in_app_or in Hin as [Hin|Hin]; [contradiction|].
    destruct Hin as [Hin|[]]. inversion Hin; subst.
    split; [exact Ho | split; [now exists pre | split]].
    + unfold logged.
      rewrite filter_app, (filter_truthy_lookups is_log pre); auto.
    + rewrite requests_app, (truthy_lookups_no_requests pre); auto.
  - exfalso. destruct Hcase as [_ Ht]. rewrite Ht, app_nil_r in Hin.
    contradiction.
  - exfalso. destruct Hcase as [_ Ht]. rewrite Ht, app_nil_r in Hin.
    contradiction.
Qed.

(** X4: an exception raised by [http.query] is raised by [ext_pillar]; the
    debug entry of the request is the only entry logged, so the failure is
    not reported at the error level. *)
Theorem request_exception_propagates (with_grains : bool) (u : string)
        (e : exn) :
  In (HttpQuery u (Raise e))
     (trace (snd (run S minion_id pillar url with_grains w))) ->
  fst (run S minion_id pillar url with_grains w) = Raised e
  /\ logged (trace (snd (run S minion_id pillar url with_grains w)))
     = [Log DEBUG fmt_url [VStr u]].
Proof.
  intros Hin.
  destruct (run_request S minion_id pillar url with_grains w u _ Hin)
    as (pre & Hpre & Ho & Ht).
  split; [exact Ho|]. rewrite Ht. unfold logged.
  rewrite filter_app, (filter_truthy_lookups is_log pre); auto.
Qed.

(** X5: an answer that is [None], a boolean, an integer or a text that is not
    empty makes [ext_pillar] raise [TypeError]: the test for [dict] or the
    indexing that follows it fails, and nothing catches it. *)
Theorem unreadable_answer_raises (with_grains : bool) (u : string)
        (data : pyval) :
  In (HttpQuery u (Ok data))
     (trace (snd (run S minion_id pillar url with_grains w))) ->
  unreadable data = true ->
  fst (run S minion_id pillar url with_grains w) = Raised TypeError.
Proof.
  intros Hin Hd.
  destruct (run_request S minion_id pillar url with_grains w u _ Hin)
    as (pre & _ & Ho & _).
  rewrite Ho. now apply answer_of_unreadable.
Qed.

(** X6: a call that returns either has logged an error and returns the empty
    mapping, or has logged no error and returns what its request was
    answered under [dict]. *)
Theorem returned_value_origin (with_grains : bool) (v : pyval) :
  fst (run S minion_id pillar url with_grains w) = Returned v ->
  (v = VDict []
   /\ filter is_error (trace (snd (run S minion_id pillar url with_grains w)))
      <> [])
  \/ (filter is_error (trace (snd (run S minion_id pillar url with_grains w)))
      = []
      /\ exists u data,
          In (HttpQuery u (Ok data))
             (trace (snd (run S minion_id pillar url with_grains w)))
          /\ py_in "dict" data = Ok true
          /\ getitem data (VStr "dict") = Ok v).
Proof.
  intros Hret.
  destruct (run_shape S minion_id pillar url with_grains w)
    as (pre & tl & ofl & Hpre & Hend & _ & Hcase).
  assert (filter is_error pre = []) as Hfpre
    by (apply filter_truthy_lookups; auto).
  destruct Hend as [u | n' g' Hg' | n' e' | | ].
  - destruct Hcase as (w1 & Hrun). rewrite Hrun in Hret |- *.
    rewrite fetch_eq in Hret |- *. cbv zeta in Hret |- *.
    cbn [world trace] in Hret |- *.
    destruct (fst (http_query S u w1)) as [data|e]; cbn [fst snd trace] in *;
      [|discriminate].
    destruct (answer_of_returned minion_id u data v Hret)
      as [(Hin & Hget & Hlogs) | (-> & evs & Hlogs)]; rewrite Hlogs.
    + right. rewrite app_nil_r, filter_app, Hfpre. split; [reflexivity|].
      exists u, data. split; [|now split].
      apply in_or_app. right. right. now left.
    + left. split; [reflexivity|].
      rewrite !filter_app, Hfpre. discriminate.
  - destruct Hcase as [Ho Ht]. rewrite Ho in Hret. inversion Hret; subst.
    left. split; [reflexivity|]. rewrite Ht, filter_app, Hfpre. discriminate.
  - destruct Hcase as [Ho _]. congruence.
  - destruct Hcase as [Ho _]. congruence.
  - destruct Hcase as [Ho _]. congruence.
Qed.

(** X7: when no placeholder name holds a metacharacter of the pattern
    syntax, a call that makes a request has looked up every placeholder, in
    order, and requests the url with [%s] substituted in which each [<name>]
    is then replaced literally, in turn, by the quoted text of its value. *)
Theorem plain_names_replaced_literally (with_grains : bool) :
  forallb meta_free
    (if with_grains
     then finditer_grain (str_replace "%s" (quote minion_id) url)
     else []) = true ->
  requests (trace (snd (run S minion_id pillar url with_grains w))) = []
  \/ (lookups (trace (snd (run S minion_id pillar url with_grains w)))
      = (if with_grains
         then finditer_grain (str_replace "%s" (quote minion_id) url)
         else [])
      /\ requests (trace (snd (run S minion_id pillar url with_grains w)))
         = [literal_resolve
              (substitutions
                 (trace (snd (run S minion_id pillar url with_grains w))))
              (str_replace "%s" (quote minion_id) url)]).
Proof.
  intros Hn.
  destruct (run_requests S minion_id pillar url with_grains w)
    as (ofl & st1 & Hloop & Hreq).
  destruct (run_split S minion_id pillar url with_grains w)
    as (ofl' & st1' & Hloop' & Hrun).
  rewrite Hloop in Hloop'. inversion Hloop'; subst ofl' st1'. clear Hloop'.
  destruct ofl as [[u|v]|e|]; try (now left).
  right. rewrite Hreq.
  destruct (grain_loop_literal S minion_id _ Hn _ _ _ _ Hloop)
    as (evs & Ht & Hl & Hu).
  cbn [trace app] in Ht. rewrite Hrun.
  destruct (fetch_trace S minion_id u st1) as (r & post & -> & Hpost).
  rewrite Ht, lookups_app, substitutions_app, !lookups_cons.
  change (substitutions (?a :: ?b :: post)) with (substitutions post).
  rewrite (errors_no_lookups _ Hpost), (errors_no_substitutions _ Hpost),
    !app_nil_r, Hl.
  split; [reflexivity | now rewrite Hu].
Qed.

(** X8: a character that [quote] does not write comes into the url
    requested from the url given only: no minion id and no grain value can
    bring it in. *)
Theorem foreign_character_from_template (with_grains : bool) (c : ascii) :
  url_char c = false ->
  mem_char c url = false ->
  Forall (fun u => mem_char c u = false)
         (requests (trace (snd (run S minion_id pillar url with_grains w)))).
Proof.
  intros Hc Hurl.
  destruct (run_requests S minion_id pillar url with_grains w)
    as (ofl & st1 & Hloop & ->).
  destruct ofl as [[u|v]|e|]; try constructor; [|constructor].
  apply (grain_loop_keeps S minion_id c _ Hc _ _ _ _ Hloop).
  apply str_replace_mem; [now apply quote_lacks | exact Hurl].
Qed.

(** X9: every name looked up stands between [<] and [>] in the url with [%s]
    substituted, and holds no [>] and no newline. *)
Theorem lookups_are_captured (with_grains : bool) :
  Forall (captured_in (str_replace "%s" (quote minion_id) url))
         (lookups (trace (snd (run S minion_id pillar url with_grains w)))).
Proof.
  destruct (run_lookups S minion_id pillar url with_grains w) as [rest Hrest].
  destruct with_grains.
  - pose proof (finditer_go_captured
                  (String.length (str_replace "%s" (quote minion_id) url))
                  (str_replace "%s" (quote minion_id) url)) as H.
    fold (finditer_grain (str_replace "%s" (quote minion_id) url)) in H.
    rewrite Hrest in H. now apply Forall_app in H.
  - symmetry in Hrest. apply app_eq_nil in Hrest as [-> _]. constructor.
Qed.

(** X11: on a url without [<], or without [>], [with_grains] changes
    nothing: the call with it set is the call without it, whatever the
    minion id is. *)
Theorem flag_idle_without_brackets :
  mem_char "<" url = false \/ mem_char ">" url = false ->
  run S minion_id pillar url true w = run S minion_id pillar url false w.
Proof.
  intros H. unfold run, ext_pillar.
  assert (finditer_grain (str_replace "%s" (quote minion_id) url) = []) as ->;
    [|reflexivity].
  unfold finditer_grain. destruct H as [H | H].
  - apply finditer_go_no_bracket.
    apply str_replace_mem; [now apply quote_lacks | exact H].
  - apply finditer_go_no_close.
    apply str_replace_mem; [now apply quote_lacks | exact H].
Qed.

End Further.

(** ** The properties on examples *)

Lemma plain_template_requested_witness :
  exists r post,
    trace (snd (run (table_salt [] (Ok web_answer)) "minion" VNone
                  "http://x/<a>" false tt))
    = Log DEBUG fmt_url [VStr "http://x/<a>"]
        :: HttpQuery "http://x/<a>" r :: post
    /\ Forall (fun e => is_error e = true) post.
Proof.
  apply (plain_template_requested (table_salt [] (Ok web_answer)) "minion"
           VNone "http://x/<a>" tt false); reflexivity.
Defined.

Lemma request_is_last_call_witness :
  requests (trace (snd (run (table_salt [("a"%string, GStr "v")]
                              (Ok timeout_answer))
                          "minion" VNone "http://x/<a>/%s" true tt)))
  = ["http://x/v/minion"%string]
  /\ exists pre post,
      trace (snd (run (table_salt [("a"%string, GStr "v")] (Ok timeout_answer))
                    "minion" VNone "http://x/<a>/%s" true tt))
      = pre ++ Log DEBUG fmt_url [VStr "http://x/v/minion"]
            :: HttpQuery "http://x/v/minion" (Ok timeout_answer) :: post
      /\ Forall truthy_lookup pre
      /\ Forall (fun e => is_error e = true) post.
Proof.
  apply (request_is_last_call
           (table_salt [("a"%string, GStr "v")] (Ok timeout_answer)) "minion"
           VNone "http://x/<a>/%s" tt true).
  vm_compute. right; right; left; reflexivity.
Defined.

Lemma lookup_exception_propagates_witness :
  fst (run no_grains_salt "minion" VNone "http://x/<a>" true tt)
  = Raised (CollaboratorError "no grains")
  /\ (exists pre,
         Forall truthy_lookup pre
         /\ trace (snd (run no_grains_salt "minion" VNone "http://x/<a>" true tt))
            = pre ++ [GrainsGet "a" (Raise (CollaboratorError "no grains"))])
  /\ logged (trace (snd (run no_grains_salt "minion" VNone "http://x/<a>"
                           true tt))) = []
  /\ requests (trace (snd (run no_grains_salt "minion" VNone "http://x/<a>"
                             true tt))) = [].
Proof.
  apply (lookup_exception_propagates no_grains_salt "minion" VNone
           "http://x/<a>" tt true "a" (CollaboratorError "no grains")).
  vm_compute. left; reflexivity.
Defined.

Lemma request_exception_propagates_witness :
  fst (run (table_salt [] (Raise (CollaboratorError "timed out"))) "minion"
         VNone "http://x/%s" false tt)
  = Raised (CollaboratorError "timed out")
  /\ logged (trace (snd (run (table_salt []
                                (Raise (CollaboratorError "timed out")))
                           "minion" VNone "http://x/%s" false tt)))
     = [Log DEBUG fmt_url [VStr "http://x/minion"]].
Proof.
  apply (request_exception_propagates
           (table_salt [] (Raise (CollaboratorError "timed out"))) "minion"
           VNone "http://x/%s" tt false "http://x/minion"
           (CollaboratorError "timed out")).
  vm_compute. right; left; reflexivity.
Defined.

Lemma unreadable_answer_raises_witness :
  fst (run (table_salt [] (Ok (VStr "not found"))) "minion" VNone
         "http://x/%s" false tt)
  = Raised TypeError.
Proof.
  apply (unreadable_answer_raises (table_salt [] (Ok (VStr "not found")))
           "minion" VNone "http://x/%s" tt false "http://x/minion"
           (VStr "not found")).
  - vm_compute. right; left; reflexivity.
  - reflexivity.
Defined.

Lemma returned_value_origin_witness :
  (VDict [("role"%string, VStr "web")] = VDict []
   /\ filter is_error
        (trace (snd (run (table_salt [] (Ok web_answer)) "minion" VNone
                       "http://x/%s" false tt))) <> [])
  \/ (filter is_error
        (trace (snd (run (table_salt [] (Ok web_answer)) "minion" VNone
                       "http://x/%s" false tt))) = []
      /\ exists u data,
          In (HttpQuery u (Ok data))
             (trace (snd (run (table_salt [] (Ok web_answer)) "minion" VNone
                            "http://x/%s" false tt)))
          /\ py_in "dict" data = Ok true
          /\ getitem data (VStr "dict") = Ok (VDict [("role"%string, VStr "web")])).
Proof.
  apply (returned_value_origin (table_salt [] (Ok web_answer)) "minion" VNone
           "http://x/%s" tt false).
  reflexivity.
Defined.

Lemma plain_names_replaced_literally_witness :
  requests (trace (snd (run (table_salt [("a"%string, GStr "v w")]
                              (Ok web_answer))
                          "minion" VNone "http://x/<a>/<a>/%s" true tt))) = []
  \/ (lookups (trace (snd (run (table_salt [("a"%string, GStr "v w")]
                                 (Ok web_answer))
                             "minion" VNone "http://x/<a>/<a>/%s" true tt)))
      = finditer_grain (str_replace "%s" (quote "minion") "http://x/<a>/<a>/%s")
      /\ requests (trace (snd (run (table_salt [("a"%string, GStr "v w")]
                                     (Ok web_answer))
                                 "minion" VNone "http://x/<a>/<a>/%s" true tt)))
         = [literal_resolve
              (substitutions
                 (trace (snd (run (table_salt [("a"%string, GStr "v w")]
                                    (Ok web_answer))
                                "minion" VNone "http://x/<a>/<a>/%s" true tt))))
              (str_replace "%s" (quote "minion") "http://x/<a>/<a>/%s")]).
Proof.
  apply (plain_names_replaced_literally
           (table_salt [("a"%string, GStr "v w")] (Ok web_answer)) "minion"
           VNone "http://x/<a>/<a>/%s" tt true).
  reflexivity.
Defined.

Lemma foreign_character_from_template_witness :
  Forall (fun u => mem_char "?" u = false)
         (requests (trace (snd (run (table_salt [("a"%string, GStr "x?y=1")]
                                      (Ok web_answer))
                                  "id?z" VNone "http://x/<a>/%s" true tt)))).
Proof.
  apply (foreign_character_from_template
           (table_salt [("a"%string, GStr "x?y=1")] (Ok web_answer)) "id?z"
           VNone "http://x/<a>/%s" tt true "?"); reflexivity.
Defined.

Lemma flag_idle_without_brackets_witness :
  run (table_salt [] (Ok web_answer)) "a<b>" VNone "http://x/%s>" true tt
  = run (table_salt [] (Ok web_answer)) "a<b>" VNone "http://x/%s>" false tt.
Proof.
  apply (flag_idle_without_brackets (table_salt [] (Ok web_answer)) "a<b>"
           VNone "http://x/%s>" tt).
  left. reflexivity.
Defined.

(** * The claims on the whole call *)

Section Whole.
Context {W : Type} (S : salt W).
Variables (minion_id : string) (pillar : pyval) (url : string) (w : W).





End Whole.



(** ** Examples on the values that [str] and [quote] accept *)

Example utf8_ascii : utf8_valid "web-01.example" = true.
Proof. reflexivity. Qed.

(** The bytes that would encode the lone surrogate U+DC80. *)
Example utf8_lone_surrogate :
  utf8_valid (String "237" (String "178" (String "128" EmptyString))) = false.
Proof. reflexivity. Qed.

Example printable_limit :
  printable (GInt (10 ^ 4300 - 1)) = true /\ printable (GInt (10 ^ 4300)) = false.
Proof. split; vm_compute; reflexivity. Qed.

(** With a placeholder in the url, [%s] is substituted all the same. *)
Example minion_id_substituted_beside_grain :
  requests
    (trace (snd (run (table_salt [("a"%string, GStr "v")] (Ok web_answer))
                   "minion" VNone "http://x/<a>/%s" true tt)))
  = ["http://x/v/minion"%string].
Proof. reflexivity. Qed.

Example utf8_samples :
  map utf8_valid
      [String "195" (String "169" EmptyString);
       String "240" (String "159" (String "152" (String "128" EmptyString)));
       String "224" (String "128" (String "128" EmptyString));
       String "244" (String "144" (String "128" (String "128" EmptyString)));
       String "192" (String "128" EmptyString);
       String "128" EmptyString;
       String "226" (String "130" EmptyString)]
  = [true; true; false; false; false; false; false].
Proof. reflexivity. Qed.
